(** * jussi/cache.py: the caching decision layer of the JSON-RPC proxy

    A shallow embedding of [src/jussi/cache.py] and the properties of its
    read path ([cache_get]), write path ([cache_set], [cache_json_response]),
    TTL policy ([ttl_from_jsonrpc_request], [irreversible_ttl]), response
    merger ([merge_cached_response]) and orchestrator ([cacher]).

    Conventions of the model.
    - Python values are the JSON-like values of [value]; floats are left out.
      A Python [str] is a [string] with one [ascii] per code point (code
      points below 256); a [dict] is an association list in insertion order.
    - Exceptions are explicit: a computation that may raise returns [exc].
    - Effects on the outside world (backend [get]/[set], the rule-table
      lookup, the upstream call) are recorded as a trace of [event]s next to
      the outcome, in the monad [M].
    - [logger] calls are not modelled: they never change control flow.
    - [int(s, base=16)] follows CPython 3.6 and later (single underscores
      between digits are accepted). *)

From Stdlib Require Import ZArith String Ascii List Bool Lia DecimalString Permutation.
Import ListNotations.
Local Open Scope string_scope.
Local Open Scope Z_scope.
Set Warnings "-register-all".

(** ** Exceptions *)

Inductive exn : Type :=
| KeyError
| IndexError
| TypeError
| ValueError
| OtherError (msg : string).

Inductive exc (A : Type) : Type :=
| Ok (a : A)
| Raise (e : exn).
Arguments Ok {A} a.
Arguments Raise {A} e.

Definition exc_bind {A B} (m : exc A) (f : A -> exc B) : exc B :=
  match m with
  | Ok a => f a
  | Raise e => Raise e
  end.

(** [try: m  except Exception as e: handler e] *)
Definition try_except {A} (m : exc A) (handler : exn -> exc A) : exc A :=
  match m with
  | Ok a => Ok a
  | Raise e => handler e
  end.

(** ** Python values *)

Inductive value : Type :=
| VNone
| VBool (b : bool)
| VInt (z : Z)
| VStr (s : string)
| VBytes (s : string)
| VList (l : list value)
| VDict (d : list (string * value)).

Definition dict : Type := list (string * value).

(** [bool(v)], the test of [if v:]. *)
Definition truthy (v : value) : bool :=
  match v with
  | VNone => false
  | VBool b => b
  | VInt z => negb (z =? 0)
  | VStr s => negb (s =? "")%string
  | VBytes s => negb (s =? "")%string
  | VList l => match l with [] => false | _ => true end
  | VDict d => match d with [] => false | _ => true end
  end.

(** *** Dictionaries *)

Fixpoint dict_get (k : string) (d : dict) : option value :=
  match d with
  | [] => None
  | (k', v) :: rest => if (k' =? k)%string then Some v else dict_get k rest
  end.

(** [k in d] *)
Definition dict_mem (k : string) (d : dict) : bool :=
  match dict_get k d with
  | Some _ => true
  | None => false
  end.

(** [d[k] = v]: an existing key keeps its place, a new key goes last. *)
Fixpoint dict_set (k : string) (v : value) (d : dict) : dict :=
  match d with
  | [] => [(k, v)]
  | (k', v') :: rest =>
      if (k' =? k)%string then (k', v) :: rest
      else (k', v') :: dict_set k v rest
  end.

Definition dict_remove (k : string) (d : dict) : dict :=
  filter (fun kv => negb (fst kv =? k)%string) d.

(** [del d[k]] *)
Definition dict_del (k : string) (d : dict) : exc dict :=
  if dict_mem k d then Ok (dict_remove k d) else Raise KeyError.

(** [operator.getitem(coll, k)] for a string key [k]. *)
Definition py_getitem (coll : value) (k : string) : exc value :=
  match coll with
  | VDict d =>
      match dict_get k d with
      | Some v => Ok v
      | None => Raise KeyError
      end
  | _ => Raise TypeError
  end.

(** [k in coll] for a string [k]: key membership in a dict, element
    membership in a list, substring test in a str. *)
Definition py_contains (k : string) (coll : value) : exc bool :=
  match coll with
  | VDict d => Ok (dict_mem k d)
  | VList l =>
      Ok (existsb (fun v => match v with
                            | VStr s => (s =? k)%string
                            | _ => false
                            end) l)
  | VStr s =>
      Ok (match k with
          | EmptyString => true
          | _ => match index 0 k s with Some _ => true | None => false end
          end)
  | _ => Raise TypeError
  end.

(** [cytoolz.get_in(keys, coll)] with its defaults [default=None],
    [no_default=False]: a failed step yields [None]. *)
Definition get_in (keys : list string) (coll : value) : exc value :=
  match fold_left (fun acc k => exc_bind acc (fun c => py_getitem c k))
                  keys (Ok coll) with
  | Ok v => Ok v
  | Raise KeyError => Ok VNone
  | Raise IndexError => Ok VNone
  | Raise TypeError => Ok VNone
  | Raise e => Raise e
  end.

(** *** [str()] and [repr()] *)

Definition code (c : ascii) : Z := Z.of_N (N_of_ascii c).

Definition chr (n : Z) : ascii := ascii_of_N (Z.to_N n).

Definition squote : ascii := chr 39.
Definition dquote : ascii := chr 34.
Definition backslash : ascii := chr 92.

Definition hex_char (d : Z) : ascii :=
  if d <? 10 then chr (48 + d) else chr (87 + d).

Definition hex2 (n : Z) : string :=
  String (hex_char (n / 16)) (String (hex_char (n mod 16)) "").

Fixpoint str_mem (c : ascii) (s : string) : bool :=
  match s with
  | EmptyString => false
  | String c' s' => if Ascii.eqb c c' then true else str_mem c s'
  end.

(** The quote [repr] wraps a text in: double quotes only when the text has a
    single quote and no double quote. *)
Definition repr_quote (s : string) : ascii :=
  if str_mem squote s && negb (str_mem dquote s) then dquote else squote.

(** [printable] tells which code points [repr] shows as they are. *)
Definition repr_char (printable : Z -> bool) (quote c : ascii) : string :=
  let n := code c in
  if Ascii.eqb c quote || Ascii.eqb c backslash then String backslash (String c "")
  else if n =? 9 then String backslash "t"
  else if n =? 10 then String backslash "n"
  else if n =? 13 then String backslash "r"
  else if printable n then String c ""
  else String backslash (String "x" (hex2 n)).

Fixpoint repr_chars (printable : Z -> bool) (quote : ascii) (s : string) : string :=
  match s with
  | EmptyString => ""
  | String c s' => repr_char printable quote c ++ repr_chars printable quote s'
  end.

Definition str_printable (n : Z) : bool :=
  (32 <=? n) && negb ((127 <=? n) && (n <=? 160)) && negb (n =? 173).

Definition bytes_printable (n : Z) : bool := (32 <=? n) && (n <? 127).

Definition repr_str (s : string) : string :=
  let q := repr_quote s in
  String q (repr_chars str_printable q s) ++ String q "".

Definition repr_bytes (s : string) : string :=
  let q := repr_quote s in
  String "b" (String q (repr_chars bytes_printable q s)) ++ String q "".

Definition str_int (z : Z) : string := NilZero.string_of_int (Z.to_int z).

Fixpoint py_repr (v : value) : string :=
  match v with
  | VNone => "None"
  | VBool true => "True"
  | VBool false => "False"
  | VInt z => str_int z
  | VStr s => repr_str s
  | VBytes s => repr_bytes s
  | VList l => "[" ++ String.concat ", " (map py_repr l) ++ "]"
  | VDict d =>
      "{" ++ String.concat ", "
               (map (fun kv => repr_str (fst kv) ++ ": " ++ py_repr (snd kv)) d)
          ++ "}"
  end.

(** [str(v)] *)
Definition py_str (v : value) : string :=
  match v with
  | VStr s => s
  | _ => py_repr v
  end.

(** [s[:n]] *)
Fixpoint slice_to (n : nat) (s : string) : string :=
  match n, s with
  | S n', String c s' => String c (slice_to n' s')
  | _, _ => ""
  end.

(** *** [int(s, base=16)] *)

Definition hex_digit_value (c : ascii) : option Z :=
  let n := code c in
  if (48 <=? n) && (n <=? 57) then Some (n - 48)
  else if (97 <=? n) && (n <=? 102) then Some (n - 87)
  else if (65 <=? n) && (n <=? 70) then Some (n - 55)
  else None.

(** White space [int] strips: the ASCII blanks, and the two other blanks
    below code point 256 (NEL and the no-break space). *)
Definition is_int_space (c : ascii) : bool :=
  let n := code c in
  ((9 <=? n) && (n <=? 13)) || (n =? 32) || (n =? 133) || (n =? 160).

Fixpoint skip_spaces (s : string) : string :=
  match s with
  | String c s' => if is_int_space c then skip_spaces s' else s
  | EmptyString => s
  end.

(** The digit loop: digits and single underscores, most significant first.
    [prev_us] tells that the previous character was an underscore; the result
    is the value, the number of digits and the unread rest, or [None] on a
    doubled or trailing underscore. *)
Fixpoint scan_digits (s : string) (prev_us : bool) (ndigits : nat) (acc : Z)
  : option (Z * nat * string) :=
  let finish := if prev_us then None else Some (acc, ndigits, s) in
  match s with
  | EmptyString => finish
  | String c s' =>
      if Ascii.eqb c "_" then
        if prev_us then None else scan_digits s' true ndigits acc
      else
        match hex_digit_value c with
        | Some d => scan_digits s' false (S ndigits) (acc * 16 + d)
        | None => finish
        end
  end.

Definition strip_sign (s : string) : bool * string :=
  match s with
  | String "+" s' => (false, s')
  | String "-" s' => (true, s')
  | _ => (false, s)
  end.

(** An optional [0x] or [0X], which may be followed by one underscore. *)
Definition strip_0x (s : string) : string :=
  match s with
  | String "0" (String x s') =>
      if Ascii.eqb x "x" || Ascii.eqb x "X" then
        match s' with
        | String "_" s'' => s''
        | _ => s'
        end
      else s
  | _ => s
  end.

Definition int_base16 (s : string) : exc Z :=
  let (negative, s1) := strip_sign (skip_spaces s) in
  let s2 := strip_0x s1 in
  match s2 with
  | String "_" _ => Raise ValueError
  | _ =>
      match scan_digits s2 false 0 0 with
      | None => Raise ValueError
      | Some (n, ndigits, rest) =>
          match ndigits, skip_spaces rest with
          | S _, EmptyString => Ok (if negative then - n else n)
          | _, _ => Raise ValueError
          end
      end
  end.

(** The value of a text of hexadecimal digits, and the test that a text is
    one (and not empty). *)
Definition hex_step (acc : Z) (c : ascii) : Z :=
  acc * 16 + match hex_digit_value c with
             | Some d => d
             | None => 0
             end.

Definition hex_value (s : string) : Z :=
  fold_left hex_step (list_ascii_of_string s) 0.

Definition all_hex (s : string) : bool :=
  forallb (fun c => match hex_digit_value c with
                    | Some _ => true
                    | None => false
                    end) (list_ascii_of_string s).

Definition is_hex (s : string) : bool :=
  match s with
  | EmptyString => false
  | _ => all_hex s
  end.

(** ** Effects: a trace of external calls next to the outcome *)

(** A configured backend handle; [is_SimpleMemoryCache] is the answer of
    [isinstance(cache, aiocache.SimpleMemoryCache)]. *)
Record Cache : Type := {
  cache_name : string;
  is_SimpleMemoryCache : bool
}.

Inductive event : Type :=
| EvGet (cache : Cache) (key : string)
| EvSet (cache : Cache) (key : string) (v : value) (ttl : Z)
| EvLongestPrefix (urn : string)
| EvUpstream.

Definition M (A : Type) : Type := (list event * exc A)%type.

Definition ret {A} (a : A) : M A := ([], Ok a).

Definition bind {A B} (m : M A) (f : A -> M B) : M B :=
  match m with
  | (t, Ok a) => let (t', r) := f a in ((t ++ t')%list, r)
  | (t, Raise e) => (t, Raise e)
  end.

Definition lift {A} (m : exc A) : M A := ([], m).

Definition emit (e : event) : M unit := ([e], Ok tt).

Definition trace {A} (m : M A) : list event := fst m.
Definition outcome {A} (m : M A) : exc A := snd m.

Notation "x <- m ;; k" := (bind m (fun x => k))
  (at level 61, m at next level, right associativity).
Notation "m ;;; k" := (bind m (fun _ => k))
  (at level 61, right associativity).

(** [asyncio.ensure_future(coro)]: the task runs detached; what it does to the
    outside world happens, how it ends is never seen by the caller. *)
Definition ensure_future {A} (task : M A) : M unit := (trace task, Ok tt).

(** Modelled from the spec: [jussi.utils.ignore_errors_async], the decorator
    on [cache_get] and [cache_set], is not in src/. The spec describes it as
    exception-based error suppression, a wrapper that converts any failure
    into the empty case: an exception raised in the wrapped coroutine is
    swallowed and the call yields [None]. *)
Definition ignore_errors_async (m : M value) : M value :=
  (trace m, Ok (match outcome m with
                | Ok v => v
                | Raise _ => VNone
                end)).

(** ** The environment of [cache.py] *)

(** Names of [jussi.jsonrpc_method_cache_settings] and [jussi.utils] that the
    module uses and src/ does not define: the sentinel TTL directives, the
    prefix rule table and the key deriver. *)
Record Settings : Type := {
  NO_CACHE : Z;
  NO_EXPIRE : Z;
  NO_EXPIRE_IF_IRREVERSIBLE : Z;
  TTLS_longest_prefix : string -> string * Z;
  method_urn : dict -> exc string
}.

(** [sanic_http_request]: the parsed body and the two fields of [app.config]
    that the module reads. *)
Record HTTPRequest : Type := {
  json : dict;
  caches : list Cache;
  last_irreversible_block_num : Z
}.

(** What the collaborators do during one call: what awaiting
    [cache.get(key)] and [cache.set(...)] yields, in which order
    [asyncio.as_completed] hands the reads back, and what awaiting the
    wrapped upstream [call()] yields. *)
Record World : Type := {
  get_outcome : Cache -> string -> exc value;
  set_outcome : Cache -> string -> value -> Z -> exc value;
  as_completed : list Cache -> list Cache;
  call_outcome : exc value
}.

Definition with_set_outcome (w : World)
  (f : Cache -> string -> value -> Z -> exc value) : World :=
  {| get_outcome := get_outcome w;
     set_outcome := f;
     as_completed := as_completed w;
     call_outcome := call_outcome w |}.

(** ** The functions of [cache.py] *)

Definition merge_cached_response (cached_response : value)
  (jsonrpc_request : dict) : exc value :=
  match cached_response with
  | VDict d =>
      match dict_get "id" jsonrpc_request with
      | Some id => Ok (VDict (dict_set "id" id d))
      | None => exc_bind (dict_del "id" d) (fun d' => Ok (VDict d'))
      end
  | _ => Raise TypeError
  end.

Definition block_num_from_id (block_hash : value) : exc Z :=
  int_base16 (slice_to 8 (py_str block_hash)).

Definition block_num_from_jsonrpc_response (jsonrpc_response : value) : exc Z :=
  exc_bind (get_in ["result"; "block_id"] jsonrpc_response) block_num_from_id.

Definition memory_cache_ttl (ttl : Z) (max_ttl : Z) : Z :=
  if ttl >? max_ttl then max_ttl else ttl.

Section WithSettings.

Variable cfg : Settings.

Definition jsonrpc_cache_key (single_jsonrpc_request : dict) : exc string :=
  method_urn cfg single_jsonrpc_request.

Definition irreversible_ttl (jsonrpc_response : value)
  (last_irreversible_block_num : Z) : exc Z :=
  try_except
    (exc_bind (block_num_from_jsonrpc_response jsonrpc_response)
       (fun jrpc_block_num =>
          if last_irreversible_block_num <? jrpc_block_num
          then Ok (NO_CACHE cfg)
          else Ok (NO_EXPIRE cfg)))
    (fun _ => Ok (NO_CACHE cfg)).

Definition ttl_from_urn (urn : string) : M Z :=
  emit (EvLongestPrefix urn) ;;;
  ret (snd (TTLS_longest_prefix cfg urn)).

Definition ttl_from_jsonrpc_request (single_jsonrpc_request : dict)
  (last_irreversible_block_num : Z) (jsonrpc_response : value) : M Z :=
  urn <- lift (jsonrpc_cache_key single_jsonrpc_request) ;;
  ttl <- ttl_from_urn urn ;;
  if ttl =? NO_EXPIRE_IF_IRREVERSIBLE cfg
  then lift (irreversible_ttl jsonrpc_response last_irreversible_block_num)
  else ret ttl.

Section WithWorld.

Variable w : World.

Definition backend_set (cache : Cache) (key : string) (v : value) (ttl : Z)
  : M value :=
  ([EvSet cache key v ttl], set_outcome w cache key v ttl).

(** The body of [for result in asyncio.as_completed(...)], over the awaited
    outcomes in completion order. *)
Fixpoint cache_get_loop (results : list (exc value)) (jsonrpc_request : dict)
  : exc value :=
  match results with
  | [] => Ok VNone
  | result :: rest =>
      exc_bind result (fun response =>
        if truthy response
        then merge_cached_response response jsonrpc_request
        else cache_get_loop rest jsonrpc_request)
  end.

(** [cache_get] before its decorator: every backend read is issued, then the
    results are inspected as they complete. *)
Definition cache_get_body (sanic_http_request : HTTPRequest) : M value :=
  let caches := caches sanic_http_request in
  key <- lift (jsonrpc_cache_key (json sanic_http_request)) ;;
  (map (fun cache => EvGet cache key) caches,
   cache_get_loop (map (fun cache => get_outcome w cache key)
                       (as_completed w caches))
                  (json sanic_http_request)).

Definition cache_get (sanic_http_request : HTTPRequest) : M value :=
  ignore_errors_async (cache_get_body sanic_http_request).

(** The loop of [cache_set]; [ttl] is the one variable the loop reads,
    overwrites and carries from a backend to the next. *)
Fixpoint cache_set_loop (caches : list Cache) (key : string) (v : value)
  (ttl : Z) : M value :=
  match caches with
  | [] => ret VNone
  | cache :: rest =>
      let ttl := if is_SimpleMemoryCache cache
                 then memory_cache_ttl ttl 60
                 else ttl in
      if ttl =? NO_CACHE cfg then ret VNone
      else
        ensure_future (backend_set cache key v ttl) ;;;
        cache_set_loop rest key v ttl
  end.

(** [cache_set] before its decorator. [ttl or f()] calls [f] when the
    argument is [None] or [0]. *)
Definition cache_set_body (sanic_http_request : HTTPRequest) (v : value)
  (ttl : option Z) : M value :=
  let last_irreversible_block_num :=
    last_irreversible_block_num sanic_http_request in
  let from_request :=
    ttl_from_jsonrpc_request (json sanic_http_request)
      last_irreversible_block_num v in
  ttl <- match ttl with
         | Some t => if t =? 0 then from_request else ret t
         | None => from_request
         end ;;
  let caches := caches sanic_http_request in
  key <- lift (jsonrpc_cache_key (json sanic_http_request)) ;;
  cache_set_loop caches key v ttl.

Definition cache_set (sanic_http_request : HTTPRequest) (v : value)
  (ttl : option Z) : M value :=
  ignore_errors_async (cache_set_body sanic_http_request v ttl).

Definition cache_json_response (sanic_http_request : HTTPRequest) (v : value)
  : M value :=
  has_error <- lift (py_contains "error" v) ;;
  if has_error : bool then ret VNone
  else
    ensure_future (cache_set sanic_http_request v None) ;;;
    ret VNone.

(** [cacher]: the decorator around the upstream [call]. *)
Definition call : M value := ([EvUpstream], call_outcome w).

Definition cacher (sanic_http_request : HTTPRequest) : M value :=
  json_response <- cache_get sanic_http_request ;;
  if truthy json_response then ret json_response
  else
    json_response <- call ;;
    ensure_future (cache_json_response sanic_http_request json_response) ;;;
    ret json_response.

End WithWorld.
End WithSettings.

(** ** The per-backend TTL of the design, and the isolation it asks of reads *)

(** A backend read that came back without error and without a usable value:
    [None], or a value that is falsy. *)
Definition empty_result (r : exc value) : Prop :=
  exists u, r = Ok u /\ truthy u = false.






(** The TTL the design gives a backend for a directive [ttl]: capped at 60
    seconds for a bounded-memory backend, the directive itself otherwise. *)
Definition effective_ttl (cache : Cache) (ttl : Z) : Z :=
  if is_SimpleMemoryCache cache then Z.min ttl 60 else ttl.

(** A backend error counts as a miss of that backend alone: with two
    backends, of which one fails and the other holds a usable entry, the read
    yields that entry whatever the completion order. *)
Definition error_is_miss_of_that_backend_only : Prop :=
  forall (cfg : Settings) (w : World) (req : HTTPRequest) (A B : Cache)
         (key : string) (e : exn) (v m : value),
    caches req = [A; B] ->
    Permutation (as_completed w [A; B]) [A; B] ->
    jsonrpc_cache_key cfg (json req) = Ok key ->
    get_outcome w A key = Raise e ->
    get_outcome w B key = Ok v ->
    truthy v = true ->
    merge_cached_response v (json req) = Ok m ->
    outcome (cache_get cfg w req) = Ok m.

(** ** A concrete deployment, for running the model *)

Module Demo.

Definition settings : Settings :=
  {| NO_CACHE := -1;
     NO_EXPIRE := 1000000000;
     NO_EXPIRE_IF_IRREVERSIBLE := -2;
     TTLS_longest_prefix := fun urn =>
       if (urn =? "get_block")%string then (urn, -2)
       else if (urn =? "get_config")%string then (urn, 1000000000)
       else if (urn =? "get_feed")%string then (urn, 100)
       else ("", 3);
     method_urn := fun request =>
       match dict_get "method" request with
       | Some (VStr name) => Ok name
       | _ => Raise KeyError
       end |}.

Definition memory : Cache :=
  {| cache_name := "default"; is_SimpleMemoryCache := true |}.

Definition redis : Cache :=
  {| cache_name := "redis"; is_SimpleMemoryCache := false |}.

Definition cached : value := VDict [("id", VInt 1); ("result", VStr "x")].

Definition live : value := VDict [("id", VInt 7); ("result", VStr "y")].

(** The memory backend fails, redis holds an entry; reads complete in
    registration order. *)
Definition world : World :=
  {| get_outcome := fun cache _ =>
       if is_SimpleMemoryCache cache then Raise (OtherError "timeout")
       else Ok cached;
     set_outcome := fun _ _ _ _ => Ok VNone;
     as_completed := fun l => l;
     call_outcome := Ok live |}.

(** The same backends, with redis answering before the memory backend
    fails. *)
Definition racing_world : World :=
  {| get_outcome := get_outcome world;
     set_outcome := fun _ _ _ _ => Raise (OtherError "connection lost");
     as_completed := fun l => rev l;
     call_outcome := Ok live |}.

(** Every backend answers with an empty dict. *)
Definition empty_world : World :=
  {| get_outcome := fun _ _ => Ok (VDict []);
     set_outcome := fun _ _ _ _ => Raise (OtherError "timeout");
     as_completed := fun l => rev l;
     call_outcome := Ok live |}.

Definition request (method : string) : HTTPRequest :=
  {| json := [("method", VStr method); ("id", VInt 42)];
     caches := [memory; redis];
     last_irreversible_block_num := 100 |}.

Definition notification : dict := [("method", VStr "get_config")].

Definition block_response (block_id : value) : value :=
  VDict [("id", VInt 1); ("result", VDict [("block_id", block_id)])].

Definition error_response : dict :=
  [("id", VInt 1); ("error", VDict [("code", VInt (-32000))])].

End Demo.

(** ** Further scenarios *)

Module Cases.

(** Every backend holds a text where a response dict should be. *)
Definition stale_world : World :=
  {| get_outcome := fun _ _ => Ok (VStr "stale");
     set_outcome := fun _ _ _ _ => Ok VNone;
     as_completed := fun l => l;
     call_outcome := Ok Demo.live |}.

(** Empty backends in front of an upstream that fails. *)
Definition failing_upstream : World :=
  {| get_outcome := fun _ _ => Ok VNone;
     set_outcome := fun _ _ _ _ => Ok VNone;
     as_completed := fun l => l;
     call_outcome := Raise (OtherError "upstream down") |}.

(** Empty backends in front of an upstream that answers with an error
    response. *)
Definition error_upstream : World :=
  {| get_outcome := fun _ _ => Ok VNone;
     set_outcome := fun _ _ _ _ => Ok VNone;
     as_completed := fun l => l;
     call_outcome := Ok (VDict Demo.error_response) |}.

(** A request body without [method]: no key can be derived from it. *)
Definition keyless_request : HTTPRequest :=
  {| json := [("id", VInt 42)];
     caches := [Demo.memory; Demo.redis];
     last_irreversible_block_num := 100 |}.

(** The events of the read path and those of the write path. *)
Definition is_read_event (e : event) : Prop :=
  match e with
  | EvGet _ _ => True
  | EvSet _ _ _ _ | EvLongestPrefix _ | EvUpstream => False
  end.

Definition is_write_event (e : event) : Prop :=
  match e with
  | EvLongestPrefix _ | EvSet _ _ _ _ => True
  | EvGet _ _ | EvUpstream => False
  end.

End Cases.

(** * Properties *)

(** ** Dictionaries *)

Lemma dict_get_set_same (k : string) (v : value) (d : dict) :
  dict_get k (dict_set k v d) = Some v.
Proof.
  induction d as [| [k' v'] rest IH]; simpl.
  - now rewrite String.eqb_refl.
  - destruct (String.eqb_spec k' k) as [-> | Hne]; simpl.
    + now rewrite String.eqb_refl.
    + destruct (String.eqb_spec k' k); [contradiction | exact IH].
Qed.

Lemma dict_get_set_other (k k0 : string) (v : value) (d : dict) :
  k0 <> k -> dict_get k0 (dict_set k v d) = dict_get k0 d.
Proof.
  intros Hne. induction d as [| [k' v'] rest IH]; simpl.
  - destruct (String.eqb_spec k k0); [congruence | reflexivity].
  - destruct (String.eqb_spec k' k) as [-> | Hk]; simpl.
    + destruct (String.eqb_spec k k0); [congruence | reflexivity].
    + destruct (String.eqb_spec k' k0); [reflexivity | exact IH].
Qed.

Lemma dict_get_remove_same (k : string) (d : dict) :
  dict_get k (dict_remove k d) = None.
Proof.
  induction d as [| [k' v'] rest IH]; simpl; [reflexivity |].
  destruct (String.eqb_spec k' k) as [-> | Hk]; simpl; [exact IH |].
  destruct (String.eqb_spec k' k); [contradiction | exact IH].
Qed.

Lemma dict_get_remove_other (k k0 : string) (d : dict) :
  k0 <> k -> dict_get k0 (dict_remove k d) = dict_get k0 d.
Proof.
  intros Hne. induction d as [| [k' v'] rest IH]; simpl; [reflexivity |].
  destruct (String.eqb_spec k' k) as [-> | Hk]; simpl.
  - destruct (String.eqb_spec k k0); [congruence | exact IH].
  - destruct (String.eqb_spec k' k0); [reflexivity | exact IH].
Qed.

Lemma dict_mem_false (k : string) (d : dict) :
  dict_mem k d = false <-> dict_get k d = None.
Proof.
  unfold dict_mem. destruct (dict_get k d); split; congruence.
Qed.

(** ** The response merger *)

(** The merge example of the design: the live id replaces the cached one,
    a notification strips it. *)
Example merge_cached_response_examples :
  merge_cached_response Demo.cached (json (Demo.request "get_config"))
  = Ok (VDict [("id", VInt 42); ("result", VStr "x")])
  /\ merge_cached_response Demo.cached Demo.notification
     = Ok (VDict [("result", VStr "x")]).
Proof. split; reflexivity. Qed.

(** C6. Merging a cached response against a live request that carries an
    [id] yields a response whose [id] is the live one; against a live request
    without [id] (the cached response having one, as cached responses do) it
    yields a response with no [id] key; in both cases every other field of
    the cached response is unchanged. *)
Theorem merge_cached_response_mirrors_id (cached request : dict) :
  (forall id, dict_get "id" request = Some id ->
     exists merged,
       merge_cached_response (VDict cached) request = Ok (VDict merged)
       /\ dict_get "id" merged = Some id
       /\ forall k, k <> "id" -> dict_get k merged = dict_get k cached)
  /\ (dict_mem "id" request = false -> dict_mem "id" cached = true ->
      exists merged,
        merge_cached_response (VDict cached) request = Ok (VDict merged)
        /\ dict_mem "id" merged = false
        /\ forall k, k <> "id" -> dict_get k merged = dict_get k cached).
Proof.
  split.
  - intros id Hid. exists (dict_set "id" id cached). simpl. rewrite Hid.
    repeat split.
    + apply dict_get_set_same.
    + intros k Hk. now apply dict_get_set_other.
  - intros Hreq Hcached. exists (dict_remove "id" cached). simpl.
    apply dict_mem_false in Hreq. rewrite Hreq.
    unfold dict_del. rewrite Hcached. simpl. repeat split.
    + apply dict_mem_false, dict_get_remove_same.
    + intros k Hk. now apply dict_get_remove_other.
Qed.

Lemma merge_cached_response_mirrors_id_witness :
  (exists merged,
     merge_cached_response Demo.cached (json (Demo.request "get_config"))
     = Ok (VDict merged)
     /\ dict_get "id" merged = Some (VInt 42)
     /\ forall k, k <> "id" ->
          dict_get k merged = dict_get k [("id", VInt 1); ("result", VStr "x")])
  /\ (exists merged,
        merge_cached_response Demo.cached Demo.notification = Ok (VDict merged)
        /\ dict_mem "id" merged = false
        /\ forall k, k <> "id" ->
             dict_get k merged = dict_get k [("id", VInt 1); ("result", VStr "x")]).
Proof.
  split.
  - apply (proj1 (merge_cached_response_mirrors_id
                    [("id", VInt 1); ("result", VStr "x")]
                    (json (Demo.request "get_config"))) (VInt 42)).
    reflexivity.
  - apply (proj2 (merge_cached_response_mirrors_id
                    [("id", VInt 1); ("result", VStr "x")]
                    Demo.notification)); reflexivity.
Defined.

(** C8. When neither the cached response nor the live request has an [id],
    the merge raises [KeyError] (from [del cached_response['id']]) instead of
    returning; on dicts the merge returns exactly when the cached response or
    the live request has an [id]. *)
Theorem merge_cached_response_raises_without_ids (cached request : dict) :
  (dict_mem "id" cached = false -> dict_mem "id" request = false ->
   merge_cached_response (VDict cached) request = Raise KeyError)
  /\ ((exists merged, merge_cached_response (VDict cached) request = Ok merged)
      <-> dict_mem "id" cached = true \/ dict_mem "id" request = true).
Proof.
  unfold merge_cached_response, dict_del, dict_mem.
  destruct (dict_get "id" request) as [id |];
    destruct (dict_get "id" cached) as [old |]; simpl; split;
    try discriminate; try reflexivity;
    try (split; [intros _; auto | intros _; eexists; reflexivity]).
  split.
  - intros [merged H]. discriminate.
  - intros [H | H]; discriminate.
Qed.

Lemma merge_cached_response_raises_without_ids_witness :
  merge_cached_response (VDict [("result", VStr "x")]) Demo.notification
  = Raise KeyError.
Proof.
  apply (proj1 (merge_cached_response_raises_without_ids
                  [("result", VStr "x")] Demo.notification)); reflexivity.
Defined.

(** ** Parsing a block number *)

(** A hexadecimal digit is neither a blank, a sign, an underscore nor the
    [x] of a prefix, and its value is below 16. *)
Lemma hex_digit_plain (c : ascii) (d : Z) :
  hex_digit_value c = Some d ->
  is_int_space c = false
  /\ Ascii.eqb c "_" = false
  /\ Ascii.eqb c "x" = false
  /\ Ascii.eqb c "X" = false
  /\ 0 <= d < 16.
Proof.
  destruct c as [[] [] [] [] [] [] [] []]; vm_compute; intros H;
    try discriminate; injection H as <-; repeat split; discriminate.
Qed.

Lemma is_hex_all_hex (s : string) :
  is_hex s = true <-> s <> "" /\ all_hex s = true.
Proof.
  destruct s; simpl; split.
  - discriminate.
  - intros [H _]. congruence.
  - intros H. split; [discriminate | exact H].
  - intros [_ H]. exact H.
Qed.

Lemma scan_digits_all_hex (s : string) :
  all_hex s = true ->
  forall ndigits acc,
    scan_digits s false ndigits acc
    = Some (fold_left hex_step (list_ascii_of_string s) acc,
            (ndigits + String.length s)%nat, "").
Proof.
  unfold all_hex.
  induction s as [| c s IH]; intros Hall ndigits acc; simpl in *.
  - now rewrite Nat.add_0_r.
  - apply andb_prop in Hall as [Hc Hs].
    destruct (hex_digit_value c) as [d |] eqn:Hd; [| discriminate].
    destruct (hex_digit_plain c d Hd) as (_ & Hus & _).
    rewrite Hus, (IH Hs), Nat.add_succ_r.
    replace (hex_step acc c) with (acc * 16 + d)
      by (unfold hex_step; now rewrite Hd).
    reflexivity.
Qed.

Lemma strip_sign_hex (c : ascii) (d : Z) (s : string) :
  hex_digit_value c = Some d -> strip_sign (String c s) = (false, String c s).
Proof.
  destruct c as [[] [] [] [] [] [] [] []]; vm_compute; intros H;
    try discriminate; reflexivity.
Qed.

Lemma strip_0x_all_hex (s : string) : all_hex s = true -> strip_0x s = s.
Proof.
  unfold all_hex. destruct s as [| c [| x s]]; simpl; intros Hall.
  - reflexivity.
  - destruct c as [[] [] [] [] [] [] [] []]; reflexivity.
  - apply andb_prop in Hall as [_ Hall]. apply andb_prop in Hall as [Hx _].
    destruct (hex_digit_value x) as [d |] eqn:Hd; [| discriminate].
    destruct (hex_digit_plain x d Hd) as (_ & _ & Hl & Hu & _).
    unfold strip_0x. rewrite Hl, Hu. simpl.
    destruct c as [[] [] [] [] [] [] [] []]; reflexivity.
Qed.

(** On a non-empty text of hexadecimal digits [int(s, base=16)] is the
    value of the digits. *)
Lemma int_base16_hex (s : string) :
  is_hex s = true -> int_base16 s = Ok (hex_value s).
Proof.
  intros H. apply is_hex_all_hex in H as [Hne Hall].
  destruct s as [| c s]; [congruence |].
  assert (Hc : exists d, hex_digit_value c = Some d).
  { unfold all_hex in Hall. simpl in Hall.
    destruct (hex_digit_value c) as [d |]; [now exists d | discriminate]. }
  destruct Hc as [d Hd].
  destruct (hex_digit_plain c d Hd) as (Hsp & Hus & _).
  unfold int_base16. simpl skip_spaces. rewrite Hsp.
  rewrite (strip_sign_hex c d s Hd), (strip_0x_all_hex _ Hall).
  rewrite (scan_digits_all_hex _ Hall).
  assert (Hhead : forall (A : Type) (a b : A),
             match String c s with String "_" _ => a | _ => b end = b).
  { intros A a b. destruct c as [[] [] [] [] [] [] [] []];
      try reflexivity; discriminate. }
  rewrite Hhead. reflexivity.
Qed.

(** C9. When the first (at most) eight characters of [str(block_hash)] form
    a non-empty text of hexadecimal digits, whether the id is a string, a
    shorter string or another value turned into text, extraction returns
    their value; extraction fails only when those characters are not such a
    text. *)
Theorem block_num_from_id_hex_prefix (block_hash : value) :
  (is_hex (slice_to 8 (py_str block_hash)) = true ->
   block_num_from_id block_hash
   = Ok (hex_value (slice_to 8 (py_str block_hash))))
  /\ (forall e, block_num_from_id block_hash = Raise e ->
        is_hex (slice_to 8 (py_str block_hash)) = false).
Proof.
  unfold block_num_from_id. split.
  - apply int_base16_hex.
  - intros e He.
    destruct (is_hex (slice_to 8 (py_str block_hash))) eqn:Hhex;
      [| reflexivity].
    rewrite (int_base16_hex _ Hhex) in He. discriminate.
Qed.

Lemma block_num_from_id_hex_prefix_witness :
  block_num_from_id (VStr "00000063a1b2c3d4") = Ok 99
  /\ block_num_from_id (VStr "ff") = Ok 255
  /\ block_num_from_id (VInt 255) = Ok 597.
Proof.
  split; [| split].
  - apply (proj1 (block_num_from_id_hex_prefix (VStr "00000063a1b2c3d4")));
      reflexivity.
  - apply (proj1 (block_num_from_id_hex_prefix (VStr "ff"))); reflexivity.
  - apply (proj1 (block_num_from_id_hex_prefix (VInt 255))); reflexivity.
Defined.

(** ** The irreversibility resolver *)

(** Looking up [result.block_id] never raises: a step that fails yields
    [None]. *)
Lemma get_in_result_block_id (jsonrpc_response : value) :
  exists block_id,
    get_in ["result"; "block_id"] jsonrpc_response = Ok block_id.
Proof.
  unfold get_in. simpl.
  destruct jsonrpc_response as [| | | | | | d]; simpl; try (now exists VNone).
  destruct (dict_get "result" d) as [r |]; simpl; [| now exists VNone].
  destruct r as [| | | | | | d']; simpl; try (now exists VNone).
  destruct (dict_get "block_id" d') as [b |]; [now exists b | now exists VNone].
Qed.

Lemma get_in_absent (d : dict) :
  dict_mem "result" d = false ->
  get_in ["result"; "block_id"] (VDict d) = Ok VNone.
Proof.
  intros H. apply dict_mem_false in H. unfold get_in. simpl. now rewrite H.
Qed.

Lemma irreversible_ttl_total (cfg : Settings) (jsonrpc_response : value)
  (lib : Z) :
  exists ttl, irreversible_ttl cfg jsonrpc_response lib = Ok ttl
              /\ (ttl = NO_CACHE cfg \/ ttl = NO_EXPIRE cfg).
Proof.
  unfold irreversible_ttl.
  destruct (block_num_from_jsonrpc_response jsonrpc_response) as [n | e]; simpl.
  - destruct (lib <? n); eexists; (split; [reflexivity | auto]).
  - eexists; (split; [reflexivity | auto]).
Qed.


(** Ids that are no text and no number never parse: their text starts with
    a letter, a bracket or a quote that [int] rejects. *)
Lemma block_num_from_id_non_text :
  block_num_from_id VNone = Raise ValueError
  /\ (forall b, block_num_from_id (VBool b) = Raise ValueError)
  /\ (forall s, block_num_from_id (VBytes s) = Raise ValueError)
  /\ (forall l, block_num_from_id (VList l) = Raise ValueError)
  /\ (forall d, block_num_from_id (VDict d) = Raise ValueError).
Proof.
  split; [reflexivity |]. split; [intros []; reflexivity |].
  split; [| split; intros; reflexivity].
  intros s.
  unfold block_num_from_id, py_str, py_repr, repr_bytes, repr_quote.
  destruct (str_mem squote s && negb (str_mem dquote s)); reflexivity.
Qed.














(** ** The monad of traces *)

Lemma bind_ok {A B} (m : M A) (f : A -> M B) (a : A) :
  outcome m = Ok a ->
  bind m f = ((trace m ++ trace (f a))%list, outcome (f a)).
Proof.
  destruct m as [t [a' | e]]; simpl; intros H; [| discriminate].
  injection H as ->. now destruct (f a).
Qed.

(** ** The write path *)

Lemma memory_cache_ttl_min (ttl : Z) : memory_cache_ttl ttl 60 = Z.min ttl 60.
Proof.
  unfold memory_cache_ttl. destruct (Z.gtb_spec ttl 60); lia.
Qed.

Lemma cache_set_loop_no_cache (cfg : Settings) (w : World)
  (caches : list Cache) (key : string) (v : value) :
  NO_CACHE cfg <= 0 ->
  cache_set_loop cfg w caches key v (NO_CACHE cfg) = ret VNone.
Proof.
  intros Hneg. destruct caches as [| cache rest]; simpl; [reflexivity |].
  rewrite memory_cache_ttl_min.
  replace (Z.min (NO_CACHE cfg) 60) with (NO_CACHE cfg) by lia.
  destruct (is_SimpleMemoryCache cache); now rewrite Z.eqb_refl.
Qed.

Lemma cache_set_loop_sets_every_backend (cfg : Settings) (w : World)
  (caches : list Cache) (key : string) (v : value) :
  NO_CACHE cfg <= 0 ->
  forall ttl b,
    ttl <> NO_CACHE cfg ->
    In b caches ->
    exists t,
      t <> NO_CACHE cfg
      /\ (t = ttl \/ t = Z.min ttl 60)
      /\ In (EvSet b key v t) (trace (cache_set_loop cfg w caches key v ttl)).
Proof.
  intros Hneg.
  induction caches as [| cache rest IH]; intros ttl b Httl Hin; [easy |].
  simpl cache_set_loop. rewrite memory_cache_ttl_min.
  set (ttl' := if is_SimpleMemoryCache cache then Z.min ttl 60 else ttl).
  assert (Hstep : ttl' <> NO_CACHE cfg /\ (ttl' = ttl \/ ttl' = Z.min ttl 60)).
  { unfold ttl'. destruct (is_SimpleMemoryCache cache); split; auto; lia. }
  destruct Hstep as [Hne Hor].
  destruct (Z.eqb_spec ttl' (NO_CACHE cfg)) as [Heq | _]; [contradiction |].
  destruct Hin as [-> | Hin].
  - exists ttl'. repeat split; auto.
    destruct (cache_set_loop cfg w rest key v ttl'). now left.
  - destruct (IH ttl' b Hne Hin) as (t & Ht & Htt & Hint).
    exists t. repeat split; auto.
    + destruct Htt as [-> | ->]; auto. destruct Hor as [-> | ->]; auto.
      right. lia.
    + destruct (cache_set_loop cfg w rest key v ttl'). now right.
Qed.

(** What holds of the cap in any order: a memory backend is always given
    [min(directive, 60)]. *)
Lemma cache_set_loop_memory_capped (cfg : Settings) (w : World)
  (caches : list Cache) (key : string) (v : value) :
  forall ttl c t,
    In (EvSet c key v t) (trace (cache_set_loop cfg w caches key v ttl)) ->
    is_SimpleMemoryCache c = true ->
    t = Z.min ttl 60.
Proof.
  induction caches as [| cache rest IH]; intros ttl c t Hin Hmem; [easy |].
  simpl cache_set_loop in Hin. rewrite memory_cache_ttl_min in Hin.
  set (ttl' := if is_SimpleMemoryCache cache then Z.min ttl 60 else ttl) in *.
  destruct (ttl' =? NO_CACHE cfg); [easy |].
  destruct (cache_set_loop cfg w rest key v ttl') as [tr o] eqn:Hloop.
  simpl in Hin. destruct Hin as [Hhead | Htail].
  - injection Hhead as -> <-. unfold ttl'. now rewrite Hmem.
  - assert (Hrest : In (EvSet c key v t)
                       (trace (cache_set_loop cfg w rest key v ttl')))
      by now rewrite Hloop.
    rewrite (IH ttl' c t Hrest Hmem). unfold ttl'.
    destruct (is_SimpleMemoryCache cache); lia.
Qed.

(** The table lookup is the first thing the TTL policy does, so a trace
    without [EvLongestPrefix] shows that the policy did not run. *)
Lemma cache_json_response_consults_rules (cfg : Settings) (w : World)
  (req : HTTPRequest) (d : dict) (key : string) :
  dict_mem "error" d = false ->
  jsonrpc_cache_key cfg (json req) = Ok key ->
  In (EvLongestPrefix key) (trace (cache_json_response cfg w req (VDict d))).
Proof.
  intros Herr Hkey.
  unfold cache_json_response, py_contains, lift. simpl. rewrite Herr.
  unfold cache_set, cache_set_body, ttl_from_jsonrpc_request, lift.
  rewrite Hkey. simpl.
  destruct (_ =? _); simpl.
  - destruct (irreversible_ttl _ _ _); simpl; [| now left].
    destruct (cache_set_loop _ _ _ _ _ _); simpl. now left.
  - destruct (cache_set_loop _ _ _ _ _ _); simpl. now left.
Qed.

(** C4. For a response that carries an [error] field the write path does
    nothing at all: no backend [set], no rule-table lookup, no key
    derivation; it returns before any TTL is computed. *)
Theorem cache_json_response_skips_errors (cfg : Settings) (w : World)
  (req : HTTPRequest) (d : dict) :
  dict_mem "error" d = true ->
  cache_json_response cfg w req (VDict d) = ([], Ok VNone).
Proof.
  intros Herr. unfold cache_json_response, py_contains, lift. simpl.
  now rewrite Herr.
Qed.

Lemma cache_json_response_skips_errors_witness :
  cache_json_response Demo.settings Demo.world (Demo.request "get_block")
    (VDict Demo.error_response)
  = ([], Ok VNone).
Proof.
  apply (cache_json_response_skips_errors Demo.settings Demo.world
           (Demo.request "get_block") Demo.error_response).
  reflexivity.
Defined.

(** C2, at the deployment [setup_caches] builds (the memory cache registered
    before redis): for a 100 second directive and for [NO_EXPIRE] alike, the
    memory cache's cap of 60 is also what redis is given; with the two
    backends in the other order redis is given the directive. *)
Theorem cache_set_memory_cap_reaches_later_backends :
  trace (cache_set Demo.settings Demo.world (Demo.request "get_feed")
           Demo.live None)
  = [EvLongestPrefix "get_feed";
     EvSet Demo.memory "get_feed" Demo.live 60;
     EvSet Demo.redis "get_feed" Demo.live 60]
  /\ trace (cache_set Demo.settings Demo.world (Demo.request "get_config")
              Demo.live None)
     = [EvLongestPrefix "get_config";
        EvSet Demo.memory "get_config" Demo.live 60;
        EvSet Demo.redis "get_config" Demo.live 60]
  /\ trace (cache_set_loop Demo.settings Demo.world [Demo.redis; Demo.memory]
              "get_feed" Demo.live 100)
     = [EvSet Demo.redis "get_feed" Demo.live 100;
        EvSet Demo.memory "get_feed" Demo.live 60].
Proof. repeat split. Qed.

(** With the [NO_CACHE] sentinel zero or negative the cap can neither
    produce nor remove [NO_CACHE], so either every backend is written or
    none is, and leaving the loop cannot be told from skipping one backend:
    a backend whose effective TTL is not [NO_CACHE] is sent some [set], one
    whose effective TTL is [NO_CACHE] is sent none. *)
Lemma cache_set_loop_nonpositive_sentinel (cfg : Settings) (w : World)
  (caches : list Cache) (key : string) (v : value) (ttl : Z) (b : Cache) :
  NO_CACHE cfg <= 0 ->
  In b caches ->
  (effective_ttl b ttl <> NO_CACHE cfg ->
   exists t,
     t <> NO_CACHE cfg
     /\ (t = effective_ttl b ttl \/ t = Z.min ttl 60)
     /\ In (EvSet b key v t) (trace (cache_set_loop cfg w caches key v ttl)))
  /\ (effective_ttl b ttl = NO_CACHE cfg ->
      forall t,
        ~ In (EvSet b key v t) (trace (cache_set_loop cfg w caches key v ttl))).
Proof.
  intros Hneg Hin. unfold effective_ttl. split; intros Heff.
  - assert (Httl : ttl <> NO_CACHE cfg).
    { destruct (is_SimpleMemoryCache b); lia. }
    destruct (cache_set_loop_sets_every_backend cfg w caches key v Hneg
                ttl b Httl Hin) as (t & Ht & Htt & Hset).
    exists t. split; [exact Ht | split; [| exact Hset]].
    destruct (is_SimpleMemoryCache b) eqn:Hmem; [| exact Htt].
    right. exact (cache_set_loop_memory_capped cfg w caches key v ttl b t
                    Hset Hmem).
  - assert (Httl : ttl = NO_CACHE cfg).
    { destruct (is_SimpleMemoryCache b); lia. }
    subst ttl. rewrite cache_set_loop_no_cache by exact Hneg.
    intros t [].
Qed.


(** ** The read path *)

Lemma cache_get_loop_skips_empty (pre rest : list (exc value))
  (request : dict) :
  Forall empty_result pre ->
  cache_get_loop (pre ++ rest) request = cache_get_loop rest request.
Proof.
  induction 1 as [| r pre (u & -> & Hu) _ IH]; simpl; [reflexivity |].
  now rewrite Hu.
Qed.

Lemma cache_get_loop_all_empty (results : list (exc value)) (request : dict) :
  Forall empty_result results -> cache_get_loop results request = Ok VNone.
Proof.
  intros H. rewrite <- (app_nil_r results).
  now rewrite cache_get_loop_skips_empty.
Qed.

Lemma cache_get_keyed (cfg : Settings) (w : World) (req : HTTPRequest)
  (key : string) :
  jsonrpc_cache_key cfg (json req) = Ok key ->
  cache_get cfg w req
  = (map (fun cache => EvGet cache key) (caches req),
     Ok (match cache_get_loop
                 (map (fun cache => get_outcome w cache key)
                      (as_completed w (caches req)))
                 (json req) with
         | Ok v => v
         | Raise _ => VNone
         end)).
Proof.
  intros Hkey. unfold cache_get, cache_get_body, ignore_errors_async, lift.
  rewrite Hkey. reflexivity.
Qed.

Lemma cache_get_unkeyed (cfg : Settings) (w : World) (req : HTTPRequest)
  (e : exn) :
  jsonrpc_cache_key cfg (json req) = Raise e ->
  cache_get cfg w req = ([], Ok VNone).
Proof.
  intros Hkey. unfold cache_get, cache_get_body, ignore_errors_async, lift.
  now rewrite Hkey.
Qed.

(** The read never raises, and all it does to the outside world is issue
    backend reads. *)
Lemma cache_get_returns (cfg : Settings) (w : World) (req : HTTPRequest) :
  exists r,
    outcome (cache_get cfg w req) = Ok r
    /\ ~ In EvUpstream (trace (cache_get cfg w req)).
Proof.
  destruct (jsonrpc_cache_key cfg (json req)) as [key | e] eqn:Hkey.
  - rewrite (cache_get_keyed cfg w req key Hkey). eexists. split.
    + reflexivity.
    + simpl. intros Hin. apply in_map_iff in Hin as (c & Hc & _).
      discriminate.
  - rewrite (cache_get_unkeyed cfg w req e Hkey). exists VNone. now split.
Qed.

Lemma completed_prefix_empty (w : World) (key : string) (pre : list Cache) :
  (forall c, In c pre -> empty_result (get_outcome w c key)) ->
  Forall empty_result (map (fun cache => get_outcome w cache key) pre).
Proof.
  intros H. apply Forall_forall. intros r Hr.
  apply in_map_iff in Hr as (c & <- & Hc). now apply H.
Qed.

(** C1, as the code has it. The read inspects the backend results in
    completion order. When every backend that completes before [b] came back
    empty and without error: if [b] holds a non-empty value, the read yields
    that value merged with the live request (nothing, should the merge
    raise); if [b] fails, the read yields nothing, whatever the backends
    completing later hold. *)
Theorem cache_get_first_completed_decides (cfg : Settings) (w : World)
  (req : HTTPRequest) (key : string) (pre post : list Cache) (b : Cache) :
  jsonrpc_cache_key cfg (json req) = Ok key ->
  as_completed w (caches req) = (pre ++ b :: post)%list ->
  (forall c, In c pre -> empty_result (get_outcome w c key)) ->
  (forall v, get_outcome w b key = Ok v -> truthy v = true ->
     outcome (cache_get cfg w req)
     = Ok (match merge_cached_response v (json req) with
           | Ok merged => merged
           | Raise _ => VNone
           end))
  /\ (forall e, get_outcome w b key = Raise e ->
        outcome (cache_get cfg w req) = Ok VNone).
Proof.
  intros Hkey Horder Hpre.
  rewrite (cache_get_keyed cfg w req key Hkey), Horder, map_app.
  rewrite (cache_get_loop_skips_empty _ _ _ (completed_prefix_empty w key pre Hpre)).
  simpl. split.
  - intros v Hv Htruthy. now rewrite Hv; simpl; rewrite Htruthy.
  - intros e He. now rewrite He.
Qed.

Lemma cache_get_first_completed_decides_witness :
  outcome (cache_get Demo.settings Demo.world (Demo.request "get_config"))
  = Ok VNone.
Proof.
  apply (proj2 (cache_get_first_completed_decides Demo.settings Demo.world
                  (Demo.request "get_config") "get_config"
                  [] [Demo.redis] Demo.memory
                  eq_refl eq_refl ltac:(simpl; intros c []))
           (OtherError "timeout")).
  reflexivity.
Defined.

(** C1, as stated, fails: the memory backend fails first, redis holds a
    usable entry, and the read yields nothing. *)
Lemma error_first_empties_the_read : ~ error_is_miss_of_that_backend_only.
Proof.
  intros H.
  specialize (H Demo.settings Demo.world (Demo.request "get_config")
                Demo.memory Demo.redis "get_config" (OtherError "timeout")
                Demo.cached
                (VDict [("id", VInt 42); ("result", VStr "x")])
                eq_refl (Permutation_refl _) eq_refl eq_refl eq_refl
                eq_refl eq_refl).
  discriminate H.
Qed.

(** ** The orchestrator *)

Lemma cacher_miss (cfg : Settings) (w : World) (req : HTTPRequest)
  (r : value) :
  outcome (cache_get cfg w req) = Ok r ->
  truthy r = false ->
  outcome (cacher cfg w req) = call_outcome w
  /\ In EvUpstream (trace (cacher cfg w req)).
Proof.
  intros Hread Hfalsy. unfold cacher.
  rewrite (bind_ok _ _ r Hread), Hfalsy. unfold call.
  destruct (call_outcome w) as [response | e]; simpl.
  - destruct (cache_json_response cfg w req response) as [t o]. simpl.
    split; [reflexivity |]. apply in_or_app. right. now left.
  - split; [reflexivity |]. apply in_or_app. right. now left.
Qed.

Lemma cacher_hit (cfg : Settings) (w : World) (req : HTTPRequest)
  (r : value) :
  outcome (cache_get cfg w req) = Ok r ->
  truthy r = true ->
  outcome (cacher cfg w req) = Ok r
  /\ trace (cacher cfg w req) = trace (cache_get cfg w req).
Proof.
  intros Hread Htruthy. unfold cacher.
  rewrite (bind_ok _ _ r Hread), Htruthy. simpl.
  now rewrite app_nil_r.
Qed.

(** C7. When the read yields nothing usable (a miss, or a failure that the
    read suppressed), the orchestrator invokes the upstream call and ends as
    that call ends, returning its response unchanged, whatever becomes of the
    backend writes it schedules. When the read yields a hit, the orchestrator
    returns it and the upstream call is not invoked. *)
Theorem cacher_hit_or_delegate (cfg : Settings) (w : World)
  (req : HTTPRequest) :
  (forall r,
     outcome (cache_get cfg w req) = Ok r -> truthy r = false ->
     outcome (cacher cfg w req) = call_outcome w
     /\ In EvUpstream (trace (cacher cfg w req))
     /\ (forall response,
           call_outcome w = Ok response ->
           trace (cacher cfg w req)
           = (trace (cache_get cfg w req) ++ EvUpstream
                :: trace (cache_json_response cfg w req response))%list)
     /\ (forall f,
           outcome (cacher cfg (with_set_outcome w f) req) = call_outcome w))
  /\ (forall e,
        outcome (cache_get_body cfg w req) = Raise e ->
        outcome (cacher cfg w req) = call_outcome w)
  /\ (forall r,
        outcome (cache_get cfg w req) = Ok r -> truthy r = true ->
        outcome (cacher cfg w req) = Ok r
        /\ ~ In EvUpstream (trace (cacher cfg w req))).
Proof.
  split; [| split].
  - intros r Hread Hfalsy.
    destruct (cacher_miss cfg w req r Hread Hfalsy) as [Hout Hup].
    split; [exact Hout | split; [exact Hup | split]].
    + intros response Hcall. unfold cacher.
      rewrite (bind_ok _ _ r Hread), Hfalsy. unfold call. rewrite Hcall.
      simpl. destruct (cache_json_response cfg w req response) as [t o].
      simpl. now rewrite app_nil_r.
    + intros f.
      apply (cacher_miss cfg (with_set_outcome w f) req r Hread Hfalsy).
  - intros e He.
    apply (cacher_miss cfg w req VNone); [| reflexivity].
    unfold cache_get, ignore_errors_async. simpl. now rewrite He.
  - intros r Hread Htruthy.
    destruct (cacher_hit cfg w req r Hread Htruthy) as [Hout Htrace].
    split; [exact Hout |]. rewrite Htrace.
    destruct (cache_get_returns cfg w req) as (_ & _ & Hno). exact Hno.
Qed.

(** C10. A backend result that is present but falsy is passed over exactly
    as a miss is: the loop goes on as if the backend had answered [None];
    and when every backend answers with such a value the read yields nothing
    and the orchestrator invokes the upstream call. *)
Theorem falsy_result_is_a_miss (cfg : Settings) (w : World)
  (req : HTTPRequest) :
  (forall pre post v,
     truthy v = false ->
     cache_get_loop (pre ++ Ok v :: post) (json req)
     = cache_get_loop (pre ++ Ok VNone :: post) (json req))
  /\ (forall key,
        jsonrpc_cache_key cfg (json req) = Ok key ->
        (forall c, In c (as_completed w (caches req)) ->
           empty_result (get_outcome w c key)) ->
        outcome (cache_get cfg w req) = Ok VNone
        /\ In EvUpstream (trace (cacher cfg w req))
        /\ outcome (cacher cfg w req) = call_outcome w).
Proof.
  split.
  - intros pre post v Hv. induction pre as [| r pre IH]; simpl.
    + now rewrite Hv.
    + destruct r as [u | e]; simpl; [| reflexivity].
      destruct (truthy u); [reflexivity | exact IH].
  - intros key Hkey Hall.
    assert (Hread : outcome (cache_get cfg w req) = Ok VNone).
    { rewrite (cache_get_keyed cfg w req key Hkey). simpl.
      now rewrite (cache_get_loop_all_empty _ _
                     (completed_prefix_empty w key _ Hall)). }
    destruct (cacher_miss cfg w req VNone Hread eq_refl) as [Hout Hup].
    auto.
Qed.

Lemma cacher_hit_or_delegate_witness :
  outcome (cacher Demo.settings Demo.world (Demo.request "get_feed"))
  = Ok Demo.live
  /\ (outcome (cacher Demo.settings Demo.racing_world
                 (Demo.request "get_feed"))
      = Ok (VDict [("id", VInt 42); ("result", VStr "x")])
      /\ ~ In EvUpstream
             (trace (cacher Demo.settings Demo.racing_world
                       (Demo.request "get_feed")))).
Proof.
  split.
  - exact (proj1 (proj1 (cacher_hit_or_delegate Demo.settings Demo.world
                           (Demo.request "get_feed"))
                    VNone eq_refl eq_refl)).
  - exact (proj2 (proj2 (cacher_hit_or_delegate Demo.settings
                           Demo.racing_world (Demo.request "get_feed")))
             (VDict [("id", VInt 42); ("result", VStr "x")])
             eq_refl eq_refl).
Defined.

Lemma falsy_result_is_a_miss_witness :
  cache_get_loop [Ok (VDict []); Ok Demo.cached]
    (json (Demo.request "get_feed"))
  = cache_get_loop [Ok VNone; Ok Demo.cached]
      (json (Demo.request "get_feed"))
  /\ (outcome (cache_get Demo.settings Demo.empty_world
                 (Demo.request "get_feed")) = Ok VNone
      /\ In EvUpstream
           (trace (cacher Demo.settings Demo.empty_world
                     (Demo.request "get_feed")))
      /\ outcome (cacher Demo.settings Demo.empty_world
                    (Demo.request "get_feed")) = Ok Demo.live).
Proof.
  split.
  - exact (proj1 (falsy_result_is_a_miss Demo.settings Demo.empty_world
                    (Demo.request "get_feed"))
             [] [Ok Demo.cached] (VDict []) eq_refl).
  - apply (proj2 (falsy_result_is_a_miss Demo.settings Demo.empty_world
                    (Demo.request "get_feed")) "get_feed" eq_refl).
    intros c _. exists (VDict []). split; reflexivity.
Defined.

(** * Further properties of the module *)

(** ** The write loop, directive by directive *)

Lemma cache_set_loop_cons (cfg : Settings) (w : World) (cache : Cache)
  (rest : list Cache) (key : string) (v : value) (ttl : Z) :
  cache_set_loop cfg w (cache :: rest) key v ttl
  = let ttl' := if is_SimpleMemoryCache cache
                then memory_cache_ttl ttl 60 else ttl in
    if ttl' =? NO_CACHE cfg then ret VNone
    else (EvSet cache key v ttl' :: trace (cache_set_loop cfg w rest key v ttl'),
          outcome (cache_set_loop cfg w rest key v ttl')).
Proof.
  simpl.
  destruct ((if is_SimpleMemoryCache cache then memory_cache_ttl ttl 60 else ttl)
            =? NO_CACHE cfg); [reflexivity |].
  now destruct (cache_set_loop cfg w rest key v _).
Qed.

Lemma cache_set_loop_outcome (cfg : Settings) (w : World)
  (caches : list Cache) (key : string) (v : value) :
  forall ttl, outcome (cache_set_loop cfg w caches key v ttl) = Ok VNone.
Proof.
  induction caches as [| cache rest IH]; intros ttl; [reflexivity |].
  rewrite cache_set_loop_cons. cbv zeta.
  destruct (_ =? _); [reflexivity | apply IH].
Qed.

Lemma cache_set_loop_only_sets (cfg : Settings) (w : World)
  (caches : list Cache) (key : string) (v : value) :
  forall ttl e,
    In e (trace (cache_set_loop cfg w caches key v ttl)) ->
    exists c t, e = EvSet c key v t.
Proof.
  induction caches as [| cache rest IH]; intros ttl e Hin; [easy |].
  rewrite cache_set_loop_cons in Hin. cbv zeta in Hin.
  destruct (_ =? _); [easy |].
  destruct Hin as [<- | Hin]; [eauto | eapply IH; eauto].
Qed.

Lemma cache_set_loop_uniform (cfg : Settings) (w : World)
  (caches : list Cache) (key : string) (v : value) (ttl : Z) :
  ttl <= 60 ->
  ttl <> NO_CACHE cfg ->
  cache_set_loop cfg w caches key v ttl
  = (map (fun cache => EvSet cache key v ttl) caches, Ok VNone).
Proof.
  intros Hsmall Hne. induction caches as [| cache rest IH]; [reflexivity |].
  rewrite cache_set_loop_cons, memory_cache_ttl_min.
  replace (Z.min ttl 60) with ttl by lia. cbv zeta.
  replace (if is_SimpleMemoryCache cache then ttl else ttl) with ttl
    by now destruct (is_SimpleMemoryCache cache).
  destruct (Z.eqb_spec ttl (NO_CACHE cfg)); [contradiction |].
  now rewrite IH.
Qed.

(** X1. The memory cap is the minimum of the TTL and the bound, so it never
    raises a TTL, never exceeds the bound, and applying it twice changes
    nothing. *)
Theorem memory_cache_ttl_is_min (ttl max_ttl : Z) :
  memory_cache_ttl ttl max_ttl = Z.min ttl max_ttl
  /\ memory_cache_ttl ttl max_ttl <= ttl
  /\ memory_cache_ttl ttl max_ttl <= max_ttl
  /\ memory_cache_ttl (memory_cache_ttl ttl max_ttl) max_ttl
     = memory_cache_ttl ttl max_ttl.
Proof.
  unfold memory_cache_ttl.
  destruct (Z.gtb_spec ttl max_ttl) as [Hgt | Hle].
  - destruct (Z.gtb_spec max_ttl max_ttl); lia.
  - destruct (Z.gtb_spec ttl max_ttl); lia.
Qed.

(** X2. A directive of at most 60 seconds that is not [NO_CACHE] reaches
    every backend unchanged: the loop issues one [set] of the key and value
    per backend, in registration order, each with the directive. *)
Theorem cache_set_loop_small_directive (cfg : Settings) (w : World)
  (caches : list Cache) (key : string) (v : value) (ttl : Z) :
  ttl <= 60 ->
  ttl <> NO_CACHE cfg ->
  trace (cache_set_loop cfg w caches key v ttl)
  = map (fun cache => EvSet cache key v ttl) caches.
Proof.
  intros Hsmall Hne. now rewrite cache_set_loop_uniform.
Qed.

Lemma cache_set_loop_small_directive_witness :
  trace (cache_set_loop Demo.settings Demo.world [Demo.memory; Demo.redis]
           "get_dynamic" Demo.live 3)
  = [EvSet Demo.memory "get_dynamic" Demo.live 3;
     EvSet Demo.redis "get_dynamic" Demo.live 3].
Proof.
  apply (cache_set_loop_small_directive Demo.settings Demo.world
           [Demo.memory; Demo.redis] "get_dynamic" Demo.live 3).
  - lia.
  - simpl. lia.
Defined.

Lemma cache_set_loop_networked_prefix (cfg : Settings) (w : World)
  (pre rest : list Cache) (key : string) (v : value) (ttl : Z) :
  Forall (fun cache => is_SimpleMemoryCache cache = false) pre ->
  ttl <> NO_CACHE cfg ->
  cache_set_loop cfg w (pre ++ rest) key v ttl
  = ((map (fun cache => EvSet cache key v ttl) pre
      ++ trace (cache_set_loop cfg w rest key v ttl))%list,
     outcome (cache_set_loop cfg w rest key v ttl)).
Proof.
  intros Hpre Hne. induction Hpre as [| cache pre Hnet _ IH].
  - cbn [app map]. now destruct (cache_set_loop cfg w rest key v ttl).
  - cbn [app]. rewrite cache_set_loop_cons, Hnet. cbv zeta.
    destruct (Z.eqb_spec ttl (NO_CACHE cfg)); [contradiction |].
    now rewrite IH.
Qed.

(** X3. With no memory backend configured, every backend is given the
    directive as it is, however large: nothing is capped. *)
Theorem cache_set_loop_networked_only (cfg : Settings) (w : World)
  (caches : list Cache) (key : string) (v : value) (ttl : Z) :
  Forall (fun cache => is_SimpleMemoryCache cache = false) caches ->
  ttl <> NO_CACHE cfg ->
  trace (cache_set_loop cfg w caches key v ttl)
  = map (fun cache => EvSet cache key v ttl) caches.
Proof.
  intros Hnet Hne.
  rewrite <- (app_nil_r caches) at 1.
  rewrite (cache_set_loop_networked_prefix cfg w caches [] key v ttl Hnet Hne).
  simpl. apply app_nil_r.
Qed.

Lemma cache_set_loop_networked_only_witness :
  trace (cache_set_loop Demo.settings Demo.world [Demo.redis; Demo.redis]
           "get_config" Demo.live 1000000000)
  = [EvSet Demo.redis "get_config" Demo.live 1000000000;
     EvSet Demo.redis "get_config" Demo.live 1000000000].
Proof.
  apply (cache_set_loop_networked_only Demo.settings Demo.world
           [Demo.redis; Demo.redis] "get_config" Demo.live 1000000000).
  - repeat constructor.
  - simpl. lia.
Defined.

(** X4. A directive above 60 seconds, with [NO_CACHE] not 60: the networked
    backends registered before the first memory backend are given the
    directive; the first memory backend and every backend after it, networked
    or not, are given 60. *)
Theorem cache_set_loop_large_directive (cfg : Settings) (w : World)
  (pre post : list Cache) (m : Cache) (key : string) (v : value) (ttl : Z) :
  Forall (fun cache => is_SimpleMemoryCache cache = false) pre ->
  is_SimpleMemoryCache m = true ->
  60 < ttl ->
  ttl <> NO_CACHE cfg ->
  NO_CACHE cfg <> 60 ->
  trace (cache_set_loop cfg w (pre ++ m :: post) key v ttl)
  = (map (fun cache => EvSet cache key v ttl) pre
     ++ map (fun cache => EvSet cache key v 60) (m :: post))%list.
Proof.
  intros Hpre Hm Hlarge Hne Hne60.
  rewrite (cache_set_loop_networked_prefix cfg w pre (m :: post) key v ttl
             Hpre Hne).
  cbn [trace fst]. f_equal.
  rewrite cache_set_loop_cons, Hm, memory_cache_ttl_min. cbv zeta.
  replace (Z.min ttl 60) with 60 by lia.
  destruct (Z.eqb_spec 60 (NO_CACHE cfg)); [congruence |].
  rewrite cache_set_loop_uniform by (lia || congruence).
  reflexivity.
Qed.

Lemma cache_set_loop_large_directive_witness :
  trace (cache_set_loop Demo.settings Demo.world
           ([Demo.redis] ++ Demo.memory :: [Demo.redis])
           "get_feed" Demo.live 100)
  = [EvSet Demo.redis "get_feed" Demo.live 100;
     EvSet Demo.memory "get_feed" Demo.live 60;
     EvSet Demo.redis "get_feed" Demo.live 60].
Proof.
  apply (cache_set_loop_large_directive Demo.settings Demo.world
           [Demo.redis] [Demo.redis] Demo.memory "get_feed" Demo.live 100).
  - repeat constructor.
  - reflexivity.
  - lia.
  - simpl. lia.
  - simpl. lia.
Defined.

(** ** [cache_set] as a whole *)

Lemma ttl_from_jsonrpc_request_unkeyed (cfg : Settings) (request : dict)
  (lib : Z) (response : value) (e : exn) :
  jsonrpc_cache_key cfg request = Raise e ->
  ttl_from_jsonrpc_request cfg request lib response = ([], Raise e).
Proof.
  intros Hkey. unfold ttl_from_jsonrpc_request, lift. now rewrite Hkey.
Qed.

Lemma ttl_from_jsonrpc_request_keyed (cfg : Settings) (request : dict)
  (lib : Z) (response : value) (key : string) :
  jsonrpc_cache_key cfg request = Ok key ->
  ttl_from_jsonrpc_request cfg request lib response
  = ([EvLongestPrefix key],
     if snd (TTLS_longest_prefix cfg key) =? NO_EXPIRE_IF_IRREVERSIBLE cfg
     then irreversible_ttl cfg response lib
     else Ok (snd (TTLS_longest_prefix cfg key))).
Proof.
  intros Hkey. unfold ttl_from_jsonrpc_request, ttl_from_urn, lift.
  rewrite Hkey. simpl.
  now destruct (_ =? _).
Qed.

(** X5. An explicit, non-zero [ttl] argument is used as the directive and the
    TTL policy is not consulted (no rule-table lookup); an explicit [ttl] of
    0 is falsy and is treated exactly as no [ttl] at all. *)
Theorem cache_set_explicit_ttl (cfg : Settings) (w : World)
  (req : HTTPRequest) (v : value) :
  (forall t key,
     jsonrpc_cache_key cfg (json req) = Ok key ->
     t <> 0 ->
     cache_set cfg w req v (Some t)
     = (trace (cache_set_loop cfg w (caches req) key v t), Ok VNone)
     /\ forall urn, ~ In (EvLongestPrefix urn)
                       (trace (cache_set cfg w req v (Some t))))
  /\ cache_set cfg w req v (Some 0) = cache_set cfg w req v None.
Proof.
  split; [| reflexivity].
  intros t key Hkey Ht.
  assert (Heq : cache_set cfg w req v (Some t)
                = (trace (cache_set_loop cfg w (caches req) key v t), Ok VNone)).
  { unfold cache_set, cache_set_body, ignore_errors_async, lift.
    destruct (Z.eqb_spec t 0); [contradiction |].
    rewrite Hkey. simpl.
    pose proof (cache_set_loop_outcome cfg w (caches req) key v t) as Hout.
    destruct (cache_set_loop cfg w (caches req) key v t) as [tr o].
    simpl in *. now rewrite Hout. }
  split; [exact Heq |].
  intros urn Hin. rewrite Heq in Hin. simpl in Hin.
  apply cache_set_loop_only_sets in Hin as (c & t' & Hev). discriminate.
Qed.

Lemma cache_set_explicit_ttl_witness :
  cache_set Demo.settings Demo.world (Demo.request "get_feed") Demo.live
    (Some 5)
  = ([EvSet Demo.memory "get_feed" Demo.live 5;
      EvSet Demo.redis "get_feed" Demo.live 5], Ok VNone).
Proof.
  apply (proj1 (cache_set_explicit_ttl Demo.settings Demo.world
                  (Demo.request "get_feed") Demo.live)
           5 "get_feed" eq_refl).
  lia.
Defined.

(** X6. [cache_set] never raises and always yields [None]; when the cache
    key cannot be derived from the request it does nothing at all: no lookup,
    no backend [set]. *)
Theorem cache_set_returns_none (cfg : Settings) (w : World)
  (req : HTTPRequest) (v : value) (ttl : option Z) :
  outcome (cache_set cfg w req v ttl) = Ok VNone
  /\ (forall e, jsonrpc_cache_key cfg (json req) = Raise e ->
        cache_set cfg w req v ttl = ([], Ok VNone)).
Proof.
  split.
  - unfold cache_set, ignore_errors_async. cbn [outcome snd]. f_equal.
    unfold cache_set_body.
    set (chosen := match ttl with
                   | Some t => if t =? 0 then _ else ret t
                   | None => _
                   end).
    destruct chosen as [tr [t | e]]; [| reflexivity].
    cbn [bind]. unfold lift.
    destruct (jsonrpc_cache_key cfg (json req)) as [key | e]; [| reflexivity].
    cbn [bind].
    pose proof (cache_set_loop_outcome cfg w (caches req) key v t) as Hout.
    destruct (cache_set_loop cfg w (caches req) key v t) as [tr' o].
    simpl in *. now rewrite Hout.
  - intros e Hkey. unfold cache_set, cache_set_body, ignore_errors_async, lift.
    rewrite (ttl_from_jsonrpc_request_unkeyed cfg _ _ _ e Hkey), Hkey.
    destruct ttl as [t |]; [| reflexivity].
    now destruct (t =? 0).
Qed.

Lemma cache_set_returns_none_witness :
  cache_set Demo.settings Demo.world
    {| json := []; caches := [Demo.memory; Demo.redis];
       last_irreversible_block_num := 100 |}
    Demo.live None
  = ([], Ok VNone).
Proof.
  apply (proj2 (cache_set_returns_none Demo.settings Demo.world
                  {| json := []; caches := [Demo.memory; Demo.redis];
                     last_irreversible_block_num := 100 |}
                  Demo.live None) KeyError).
  reflexivity.
Defined.

(** ** The TTL policy *)

(** X7. For a request whose key derives, the policy consults the rule table
    exactly once, with that key, and never raises. A directive other than
    [NO_EXPIRE_IF_IRREVERSIBLE] is returned as it is, whatever the response
    and the last irreversible block; the deferred directive is resolved to
    [NO_CACHE] or [NO_EXPIRE], so that, the sentinels being distinct, the
    policy never returns [NO_EXPIRE_IF_IRREVERSIBLE]. *)
Theorem ttl_from_jsonrpc_request_resolves (cfg : Settings) (request : dict)
  (lib : Z) (response : value) (key : string) :
  jsonrpc_cache_key cfg request = Ok key ->
  exists ttl,
    ttl_from_jsonrpc_request cfg request lib response
    = ([EvLongestPrefix key], Ok ttl)
    /\ (snd (TTLS_longest_prefix cfg key) <> NO_EXPIRE_IF_IRREVERSIBLE cfg ->
        ttl = snd (TTLS_longest_prefix cfg key))
    /\ (snd (TTLS_longest_prefix cfg key) = NO_EXPIRE_IF_IRREVERSIBLE cfg ->
        ttl = NO_CACHE cfg \/ ttl = NO_EXPIRE cfg)
    /\ (NO_CACHE cfg <> NO_EXPIRE_IF_IRREVERSIBLE cfg ->
        NO_EXPIRE cfg <> NO_EXPIRE_IF_IRREVERSIBLE cfg ->
        ttl <> NO_EXPIRE_IF_IRREVERSIBLE cfg).
Proof.
  intros Hkey. rewrite (ttl_from_jsonrpc_request_keyed cfg _ _ _ key Hkey).
  destruct (Z.eqb_spec (snd (TTLS_longest_prefix cfg key))
              (NO_EXPIRE_IF_IRREVERSIBLE cfg)) as [Hdef | Hdirect].
  - destruct (irreversible_ttl_total cfg response lib) as (ttl & -> & Hbin).
    exists ttl. split; [reflexivity |]. split; [congruence |].
    split; [auto |]. intros H1 H2. destruct Hbin; congruence.
  - eexists. split; [reflexivity |]. split; [reflexivity |].
    split; [congruence |]. auto.
Qed.

Lemma ttl_from_jsonrpc_request_resolves_witness :
  exists ttl,
    ttl_from_jsonrpc_request Demo.settings
      (json (Demo.request "get_block")) 100
      (Demo.block_response (VStr "00000063a1b2c3d4"))
    = ([EvLongestPrefix "get_block"], Ok ttl)
    /\ ttl <> NO_EXPIRE_IF_IRREVERSIBLE Demo.settings.
Proof.
  destruct (ttl_from_jsonrpc_request_resolves Demo.settings
              (json (Demo.request "get_block")) 100
              (Demo.block_response (VStr "00000063a1b2c3d4"))
              "get_block" eq_refl) as (ttl & Heq & _ & _ & Hne).
  exists ttl. split; [exact Heq |].
  apply Hne; simpl; lia.
Defined.

(** X8. Irreversibility is kept as the chain advances: a response that
    resolves to [NO_EXPIRE] at one last irreversible block number resolves to
    [NO_EXPIRE] at every later one. *)
Theorem irreversible_ttl_monotone (cfg : Settings) (response : value)
  (lib lib' : Z) :
  lib <= lib' ->
  irreversible_ttl cfg response lib = Ok (NO_EXPIRE cfg) ->
  irreversible_ttl cfg response lib' = Ok (NO_EXPIRE cfg).
Proof.
  unfold irreversible_ttl. intros Hle.
  destruct (block_num_from_jsonrpc_response response) as [n | e];
    cbn [exc_bind try_except]; [| auto].
  destruct (Z.ltb_spec lib n), (Z.ltb_spec lib' n); auto; lia.
Qed.

Lemma irreversible_ttl_monotone_witness :
  irreversible_ttl Demo.settings
    (Demo.block_response (VStr "00000063a1b2c3d4")) 5000
  = Ok (NO_EXPIRE Demo.settings).
Proof.
  apply (irreversible_ttl_monotone Demo.settings
           (Demo.block_response (VStr "00000063a1b2c3d4")) 100 5000).
  - lia.
  - reflexivity.
Defined.

(** ** Block numbers *)

Lemma scan_digits_bound (s : string) :
  forall prev_us ndigits acc n ndigits' rest,
    0 <= acc ->
    scan_digits s prev_us ndigits acc = Some (n, ndigits', rest) ->
    0 <= n < (acc + 1) * 16 ^ Z.of_nat (String.length s).
Proof.
  induction s as [| c s IH]; intros prev_us ndigits acc n ndigits' rest Hacc H.
  - simpl in H. destruct prev_us; [discriminate |].
    injection H as <- _ _. simpl. lia.
  - cbn [String.length]. rewrite Nat2Z.inj_succ, Z.pow_succ_r by lia.
    assert (Hpow : 0 < 16 ^ Z.of_nat (String.length s))
      by (apply Z.pow_pos_nonneg; lia).
    simpl in H. destruct (Ascii.eqb c "_").
    + destruct prev_us; [discriminate |].
      apply IH in H; [| exact Hacc]. nia.
    + destruct (hex_digit_value c) as [d |] eqn:Hd.
      * destruct (hex_digit_plain c d Hd) as (_ & _ & _ & _ & Hrange).
        apply IH in H; [| lia]. nia.
      * destruct prev_us; [discriminate |]. injection H as <- _ _. nia.
Qed.

Lemma skip_spaces_length (s : string) :
  (String.length (skip_spaces s) <= String.length s)%nat.
Proof.
  induction s as [| c s IH]; simpl; [lia |].
  destruct (is_int_space c); simpl; lia.
Qed.

Lemma strip_sign_length (s : string) :
  (String.length (snd (strip_sign s)) <= String.length s)%nat.
Proof.
  destruct s as [| c s]; [simpl; lia |].
  destruct c as [[] [] [] [] [] [] [] []]; simpl; lia.
Qed.

Lemma strip_0x_length (s : string) :
  (String.length (strip_0x s) <= String.length s)%nat.
Proof.
  destruct s as [| c [| x s]]; [simpl; lia | |].
  - destruct c as [[] [] [] [] [] [] [] []]; simpl; lia.
  - destruct c as [[] [] [] [] [] [] [] []]; try (simpl; lia).
    unfold strip_0x. destruct (_ || _); [| simpl; lia].
    destruct s as [| u s]; [simpl; lia |].
    destruct u as [[] [] [] [] [] [] [] []]; simpl; lia.
Qed.

Lemma digits_result_bound (s : string) (negative : bool) (n : Z) :
  match scan_digits s false 0 0 with
  | None => Raise ValueError
  | Some (m, ndigits, rest) =>
      match ndigits, skip_spaces rest with
      | S _, EmptyString => Ok (if negative then - m else m)
      | _, _ => Raise ValueError
      end
  end = Ok n ->
  - 16 ^ Z.of_nat (String.length s) < n < 16 ^ Z.of_nat (String.length s).
Proof.
  destruct (scan_digits s false 0 0) as [[[m ndigits] rest] |] eqn:Hscan;
    [| discriminate].
  apply scan_digits_bound in Hscan; [| lia].
  destruct ndigits; [discriminate |].
  destruct (skip_spaces rest); [| discriminate].
  intros H. injection H as <-. destruct negative; lia.
Qed.

Lemma int_base16_bound (s : string) (n : Z) :
  int_base16 s = Ok n ->
  - 16 ^ Z.of_nat (String.length s) < n < 16 ^ Z.of_nat (String.length s).
Proof.
  unfold int_base16. intros H.
  pose proof (skip_spaces_length s) as Hsp.
  pose proof (strip_sign_length (skip_spaces s)) as Hsign.
  destruct (strip_sign (skip_spaces s)) as [negative s1]. simpl in Hsign.
  pose proof (strip_0x_length s1) as Hx.
  assert (Hmono : 16 ^ Z.of_nat (String.length (strip_0x s1))
                  <= 16 ^ Z.of_nat (String.length s))
    by (apply Z.pow_le_mono_r; lia).
  cbv zeta in H.
  destruct (strip_0x s1) as [| c s2].
  - apply (digits_result_bound _ negative) in H. lia.
  - destruct c as [[] [] [] [] [] [] [] []];
      first [ discriminate H
            | apply (digits_result_bound _ negative) in H; lia ].
Qed.

Lemma slice_to_length (n : nat) (s : string) :
  (String.length (slice_to n s) <= n)%nat.
Proof.
  revert s. induction n as [| n IH]; intros s; [simpl; lia |].
  destruct s as [| c s]; simpl; [lia |]. specialize (IH s). lia.
Qed.

Lemma slice_to_append (s t : string) :
  slice_to (String.length s) (s ++ t) = s.
Proof.
  induction s as [| c s IH]; simpl.
  - now destruct t.
  - now rewrite IH.
Qed.

(** X9. A block number, whenever extraction succeeds, fits in 32 bits next
    to its sign; and when the first eight characters are hexadecimal digits
    extraction succeeds with a number from 0 to 2^32 - 1. *)
Theorem block_num_from_id_range (block_hash : value) :
  (forall n, block_num_from_id block_hash = Ok n ->
     - 4294967296 < n < 4294967296)
  /\ (is_hex (slice_to 8 (py_str block_hash)) = true ->
      exists n, block_num_from_id block_hash = Ok n /\ 0 <= n < 4294967296).
Proof.
  assert (Hgen : forall n, block_num_from_id block_hash = Ok n ->
                   - 4294967296 < n < 4294967296).
  { intros n H. unfold block_num_from_id in H.
    apply int_base16_bound in H.
    pose proof (slice_to_length 8 (py_str block_hash)) as Hlen.
    assert (16 ^ Z.of_nat (String.length (slice_to 8 (py_str block_hash)))
            <= 16 ^ 8) by (apply Z.pow_le_mono_r; lia).
    change (16 ^ 8) with 4294967296 in *. lia. }
  split; [exact Hgen |].
  intros Hhex. exists (hex_value (slice_to 8 (py_str block_hash))).
  assert (Hok : block_num_from_id block_hash
                = Ok (hex_value (slice_to 8 (py_str block_hash))))
    by (unfold block_num_from_id; now apply int_base16_hex).
  split; [exact Hok |].
  pose proof (Hgen _ Hok) as Hrange. split; [| lia].
  unfold hex_value.
  assert (Hfold : forall l acc, 0 <= acc -> 0 <= fold_left hex_step l acc).
  { induction l as [| c l IH]; intros acc Hacc; simpl; [exact Hacc |].
    apply IH. unfold hex_step.
    destruct (hex_digit_value c) as [d |] eqn:Hd; [| lia].
    destruct (hex_digit_plain c d Hd) as (_ & _ & _ & _ & Hr). lia. }
  apply Hfold. lia.
Qed.

Lemma block_num_from_id_range_witness :
  (- 4294967296 < 4294967295 < 4294967296)
  /\ exists n, block_num_from_id (VStr "0012d687abcdef") = Ok n
               /\ 0 <= n < 4294967296.
Proof.
  split.
  - apply (proj1 (block_num_from_id_range (VStr "ffffffff0000")) 4294967295).
    reflexivity.
  - apply (proj2 (block_num_from_id_range (VStr "0012d687abcdef"))).
    reflexivity.
Defined.

(** X10. For a block id that is [None] (as when [result.block_id] is
    absent or null), a boolean, bytes, a list or a dict, extraction raises
    [ValueError]. *)
Theorem block_num_from_id_rejects_none_and_containers :
  block_num_from_id VNone = Raise ValueError
  /\ (forall b, block_num_from_id (VBool b) = Raise ValueError)
  /\ (forall s, block_num_from_id (VBytes s) = Raise ValueError)
  /\ (forall l, block_num_from_id (VList l) = Raise ValueError)
  /\ (forall d, block_num_from_id (VDict d) = Raise ValueError).
Proof. exact block_num_from_id_non_text. Qed.

(** X11. The block number depends on the first eight characters of the id
    only: whatever follows them is ignored. *)
Theorem block_num_from_id_prefix_only (s t : string) :
  String.length s = 8%nat ->
  block_num_from_id (VStr (s ++ t)) = block_num_from_id (VStr s).
Proof.
  intros Hlen. unfold block_num_from_id, py_str.
  rewrite <- Hlen at 1. rewrite slice_to_append.
  replace (slice_to 8 s) with s; [reflexivity |].
  rewrite <- Hlen. rewrite <- (slice_to_append s "") at 1.
  f_equal. clear. induction s as [| c s IH]; simpl; congruence.
Qed.

Lemma block_num_from_id_prefix_only_witness :
  block_num_from_id (VStr ("00000063" ++ "a1b2c3d4e5f6"))
  = block_num_from_id (VStr "00000063").
Proof.
  apply (block_num_from_id_prefix_only "00000063" "a1b2c3d4e5f6").
  reflexivity.
Defined.

(** ** More on the response merger *)

Lemma dict_mem_true_get (k : string) (d : dict) :
  dict_mem k d = true -> exists v, dict_get k d = Some v.
Proof.
  unfold dict_mem. destruct (dict_get k d) as [v |]; [eauto | discriminate].
Qed.

Lemma dict_mem_keys (k : string) (d : dict) :
  dict_mem k d = true <-> In k (map fst d).
Proof.
  unfold dict_mem. induction d as [| [k' v'] rest IH]; simpl.
  - split; [discriminate | tauto].
  - destruct (String.eqb_spec k' k) as [-> | Hne].
    + split; auto.
    + rewrite IH. split; [auto | intros [H | H]; [contradiction | exact H]].
Qed.

Lemma dict_set_keys_present (k : string) (v : value) (d : dict) :
  dict_mem k d = true -> map fst (dict_set k v d) = map fst d.
Proof.
  unfold dict_mem. induction d as [| [k' v'] rest IH]; simpl; [discriminate |].
  destruct (String.eqb_spec k' k); simpl; [reflexivity |].
  intros H. now rewrite IH.
Qed.

Lemma dict_set_keys_absent (k : string) (v : value) (d : dict) :
  dict_mem k d = false -> map fst (dict_set k v d) = (map fst d ++ [k])%list.
Proof.
  unfold dict_mem. induction d as [| [k' v'] rest IH]; simpl; [reflexivity |].
  destruct (String.eqb_spec k' k); simpl; [discriminate |].
  intros H. now rewrite IH.
Qed.

Lemma dict_remove_keys (k : string) (d : dict) :
  map fst (dict_remove k d)
  = filter (fun k' => negb (k' =? k)%string) (map fst d).
Proof.
  induction d as [| [k' v'] rest IH]; simpl; [reflexivity |].
  destruct (k' =? k)%string; simpl; now rewrite IH.
Qed.

Lemma dict_set_set (k : string) (v1 v2 : value) (d : dict) :
  dict_set k v2 (dict_set k v1 d) = dict_set k v2 d.
Proof.
  induction d as [| [k' v'] rest IH]; simpl.
  - now rewrite String.eqb_refl.
  - destruct (String.eqb_spec k' k) as [-> | Hne]; simpl.
    + now rewrite String.eqb_refl.
    + destruct (String.eqb_spec k' k); [contradiction | now rewrite IH].
Qed.

(** X12. The merge keeps the shape of the cached response. With an [id] in
    the live request, the [id] is overwritten in place when the cached
    response has one and appended as the last field when it has none; without
    an [id] in the request, the fields are the cached ones less [id], in
    their order. In both cases keys stay unique. *)
Theorem merge_cached_response_keeps_fields (cached request : dict) :
  (forall id, dict_get "id" request = Some id ->
     exists merged,
       merge_cached_response (VDict cached) request = Ok (VDict merged)
       /\ (dict_mem "id" cached = true -> map fst merged = map fst cached)
       /\ (dict_mem "id" cached = false ->
           map fst merged = (map fst cached ++ ["id"])%list)
       /\ (NoDup (map fst cached) -> NoDup (map fst merged)))
  /\ (dict_mem "id" request = false -> dict_mem "id" cached = true ->
      exists merged,
        merge_cached_response (VDict cached) request = Ok (VDict merged)
        /\ map fst merged
           = filter (fun k => negb (k =? "id")%string) (map fst cached)
        /\ (NoDup (map fst cached) -> NoDup (map fst merged))).
Proof.
  split.
  - intros id Hid. exists (dict_set "id" id cached).
    simpl. rewrite Hid. split; [reflexivity |].
    split; [apply dict_set_keys_present |].
    split; [apply dict_set_keys_absent |].
    intros Hnd. destruct (dict_mem "id" cached) eqn:Hmem.
    + now rewrite dict_set_keys_present.
    + rewrite dict_set_keys_absent by exact Hmem.
      apply NoDup_app; [exact Hnd | repeat constructor; easy |].
      intros k Hk [<- | []].
      apply dict_mem_keys in Hk. congruence.
  - intros Hreq Hcached. exists (dict_remove "id" cached).
    simpl. apply dict_mem_false in Hreq. rewrite Hreq.
    unfold dict_del. rewrite Hcached. simpl.
    split; [reflexivity |]. split; [apply dict_remove_keys |].
    intros Hnd. rewrite dict_remove_keys. now apply NoDup_filter.
Qed.

Lemma merge_cached_response_keeps_fields_witness :
  (exists merged,
     merge_cached_response (VDict [("result", VStr "x")])
       (json (Demo.request "get_config")) = Ok (VDict merged)
     /\ map fst merged = ["result"; "id"])
  /\ (exists merged,
        merge_cached_response Demo.cached Demo.notification
        = Ok (VDict merged)
        /\ map fst merged = ["result"]).
Proof.
  split.
  - destruct (proj1 (merge_cached_response_keeps_fields
                       [("result", VStr "x")]
                       (json (Demo.request "get_config")))
                (VInt 42) eq_refl) as (merged & Heq & _ & Hkeys & _).
    exists merged. split; [exact Heq | exact (Hkeys eq_refl)].
  - destruct (proj2 (merge_cached_response_keeps_fields
                       [("id", VInt 1); ("result", VStr "x")]
                       Demo.notification) eq_refl eq_refl)
      as (merged & Heq & Hkeys & _).
    exists merged. split; [exact Heq | exact Hkeys].
Defined.

(** X13. Merging again. Against requests that carry ids the last request
    wins: merging for one request and then for another gives what merging for
    the second alone gives. Against a request without [id] a second merge of
    the same response always raises [KeyError], the first having removed the
    [id]. *)
Theorem merge_cached_response_twice (cached request1 request2 : dict) :
  (dict_mem "id" request1 = true -> dict_mem "id" request2 = true ->
   exc_bind (merge_cached_response (VDict cached) request1)
     (fun merged => merge_cached_response merged request2)
   = merge_cached_response (VDict cached) request2)
  /\ (dict_mem "id" request1 = false ->
      exc_bind (merge_cached_response (VDict cached) request1)
        (fun merged => merge_cached_response merged request1)
      = Raise KeyError).
Proof.
  split.
  - intros H1 H2.
    apply dict_mem_true_get in H1 as [id1 H1].
    apply dict_mem_true_get in H2 as [id2 H2].
    simpl. rewrite H1, H2. simpl. rewrite H2. now rewrite dict_set_set.
  - intros H1. apply dict_mem_false in H1. simpl. rewrite H1.
    unfold dict_del. destruct (dict_mem "id" cached); simpl; [| reflexivity].
    rewrite H1. unfold dict_del.
    now rewrite (proj2 (dict_mem_false "id" _) (dict_get_remove_same "id" cached)).
Qed.

Lemma merge_cached_response_twice_witness :
  exc_bind (merge_cached_response Demo.cached (json (Demo.request "get_feed")))
    (fun merged =>
       merge_cached_response merged [("id", VStr "abc")])
  = merge_cached_response Demo.cached [("id", VStr "abc")]
  /\ exc_bind (merge_cached_response Demo.cached Demo.notification)
       (fun merged => merge_cached_response merged Demo.notification)
     = Raise KeyError.
Proof.
  split.
  - apply (proj1 (merge_cached_response_twice
                    [("id", VInt 1); ("result", VStr "x")]
                    (json (Demo.request "get_feed"))
                    [("id", VStr "abc")])); reflexivity.
  - apply (proj2 (merge_cached_response_twice
                    [("id", VInt 1); ("result", VStr "x")]
                    Demo.notification Demo.notification)); reflexivity.
Defined.

(** ** More on the read path *)

Lemma merge_cached_response_id (v : value) (request : dict) (r : value) :
  merge_cached_response v request = Ok r ->
  exists merged,
    r = VDict merged /\ dict_get "id" merged = dict_get "id" request.
Proof.
  destruct v as [| | | | | | d]; try discriminate. simpl.
  destruct (dict_get "id" request) as [id |] eqn:Hid.
  - intros H. injection H as <-. eexists. split; [reflexivity |].
    apply dict_get_set_same.
  - unfold dict_del. destruct (dict_mem "id" d); [| discriminate].
    simpl. intros H. injection H as <-. eexists. split; [reflexivity |].
    apply dict_get_remove_same.
Qed.

Lemma cache_get_loop_id (results : list (exc value)) (request : dict)
  (r : value) :
  cache_get_loop results request = Ok r ->
  r = VNone
  \/ exists merged,
       r = VDict merged /\ dict_get "id" merged = dict_get "id" request.
Proof.
  induction results as [| [v | e] rest IH]; simpl.
  - intros H. injection H as <-. now left.
  - destruct (truthy v); [| exact IH].
    intros H. right. now apply (merge_cached_response_id v).
  - discriminate.
Qed.

(** X14. What the read hands back is either [None] or a dict whose [id]
    is that of the live request (absent when the request has none): an id
    stored with a cached response never reaches the caller. The read itself
    never raises. *)
Theorem cache_get_mirrors_request_id (cfg : Settings) (w : World)
  (req : HTTPRequest) :
  exists r,
    outcome (cache_get cfg w req) = Ok r
    /\ (r = VNone
        \/ exists merged,
             r = VDict merged
             /\ dict_get "id" merged = dict_get "id" (json req)).
Proof.
  destruct (jsonrpc_cache_key cfg (json req)) as [key | e] eqn:Hkey.
  - rewrite (cache_get_keyed cfg w req key Hkey). cbn [outcome snd].
    eexists. split; [reflexivity |].
    destruct (cache_get_loop _ (json req)) as [r | e] eqn:Hloop.
    + now apply cache_get_loop_id in Hloop.
    + now left.
  - rewrite (cache_get_unkeyed cfg w req e Hkey). exists VNone.
    split; [reflexivity | now left].
Qed.

Lemma cache_get_first_nonempty (cfg : Settings) (w : World)
  (req : HTTPRequest) (key : string) (pre post : list Cache) (b : Cache)
  (v : value) :
  jsonrpc_cache_key cfg (json req) = Ok key ->
  as_completed w (caches req) = (pre ++ b :: post)%list ->
  (forall c, In c pre -> empty_result (get_outcome w c key)) ->
  get_outcome w b key = Ok v ->
  truthy v = true ->
  cache_get cfg w req
  = (map (fun cache => EvGet cache key) (caches req),
     Ok (match merge_cached_response v (json req) with
         | Ok merged => merged
         | Raise _ => VNone
         end)).
Proof.
  intros Hkey Horder Hpre Hv Htruthy.
  rewrite (cache_get_keyed cfg w req key Hkey), Horder, map_app.
  rewrite (cache_get_loop_skips_empty _ _ _
             (completed_prefix_empty w key pre Hpre)).
  simpl. now rewrite Hv; simpl; rewrite Htruthy.
Qed.

(** X15. A first non-empty result that does not merge into a non-empty
    response (a value that is not a dict, a dict without [id] read for a
    request without [id], a dict with nothing but an [id] read for such a
    request) counts as a miss: the backends completing later are not looked
    at and the orchestrator goes to the upstream call. *)
Theorem cacher_unusable_entry_is_a_miss (cfg : Settings) (w : World)
  (req : HTTPRequest) (key : string) (pre post : list Cache) (b : Cache)
  (v : value) :
  jsonrpc_cache_key cfg (json req) = Ok key ->
  as_completed w (caches req) = (pre ++ b :: post)%list ->
  (forall c, In c pre -> empty_result (get_outcome w c key)) ->
  get_outcome w b key = Ok v ->
  truthy v = true ->
  match merge_cached_response v (json req) with
  | Ok merged => truthy merged = false
  | Raise _ => True
  end ->
  outcome (cacher cfg w req) = call_outcome w
  /\ In EvUpstream (trace (cacher cfg w req)).
Proof.
  intros Hkey Horder Hpre Hv Htruthy Hmerge.
  pose proof (cache_get_first_nonempty cfg w req key pre post b v
                Hkey Horder Hpre Hv Htruthy) as Hread.
  destruct (merge_cached_response v (json req)) as [merged | e].
  - apply (cacher_miss cfg w req merged); [now rewrite Hread | exact Hmerge].
  - apply (cacher_miss cfg w req VNone); [now rewrite Hread | reflexivity].
Qed.

Lemma cacher_unusable_entry_is_a_miss_witness :
  outcome (cacher Demo.settings Cases.stale_world (Demo.request "get_feed"))
  = Ok Demo.live
  /\ In EvUpstream
       (trace (cacher Demo.settings Cases.stale_world
                 (Demo.request "get_feed"))).
Proof.
  apply (cacher_unusable_entry_is_a_miss Demo.settings Cases.stale_world
           (Demo.request "get_feed") "get_feed" [] [Demo.redis] Demo.memory
           (VStr "stale") eq_refl eq_refl).
  - intros c [].
  - reflexivity.
  - reflexivity.
  - exact I.
Defined.

(** ** More on the orchestrator *)

Lemma dict_set_truthy (k : string) (v : value) (d : dict) :
  truthy (VDict (dict_set k v d)) = true.
Proof.
  destruct d as [| [k' v'] rest]; simpl; [reflexivity |].
  now destruct (k' =? k)%string.
Qed.

(** X16. A hit, end to end. For a request with an [id], when the first
    non-empty result in completion order is a non-empty dict, the orchestrator
    returns that dict with the request's [id], and all it has done is issue
    one read per backend: the upstream is not called and no backend is
    written, so a hit in one backend does not fill the others. *)
Theorem cacher_hit_end_to_end (cfg : Settings) (w : World)
  (req : HTTPRequest) (key : string) (pre post : list Cache) (b : Cache)
  (d : dict) (id : value) :
  jsonrpc_cache_key cfg (json req) = Ok key ->
  as_completed w (caches req) = (pre ++ b :: post)%list ->
  (forall c, In c pre -> empty_result (get_outcome w c key)) ->
  get_outcome w b key = Ok (VDict d) ->
  d <> [] ->
  dict_get "id" (json req) = Some id ->
  cacher cfg w req
  = (map (fun cache => EvGet cache key) (caches req),
     Ok (VDict (dict_set "id" id d))).
Proof.
  intros Hkey Horder Hpre Hv Hd Hid.
  assert (Htruthy : truthy (VDict d) = true) by (destruct d; [congruence | reflexivity]).
  pose proof (cache_get_first_nonempty cfg w req key pre post b (VDict d)
                Hkey Horder Hpre Hv Htruthy) as Hread.
  simpl in Hread. rewrite Hid in Hread.
  unfold cacher. rewrite Hread. cbn [bind].
  rewrite dict_set_truthy. simpl. now rewrite app_nil_r.
Qed.

Lemma cacher_hit_end_to_end_witness :
  cacher Demo.settings Demo.racing_world (Demo.request "get_feed")
  = ([EvGet Demo.memory "get_feed"; EvGet Demo.redis "get_feed"],
     Ok (VDict [("id", VInt 42); ("result", VStr "x")])).
Proof.
  apply (cacher_hit_end_to_end Demo.settings Demo.racing_world
           (Demo.request "get_feed") "get_feed" [] [Demo.memory] Demo.redis
           [("id", VInt 1); ("result", VStr "x")] (VInt 42)
           eq_refl eq_refl).
  - intros c [].
  - reflexivity.
  - discriminate.
  - reflexivity.
Defined.

Lemma cacher_miss_unfold (cfg : Settings) (w : World) (req : HTTPRequest)
  (r : value) :
  outcome (cache_get cfg w req) = Ok r ->
  truthy r = false ->
  cacher cfg w req
  = match call_outcome w with
    | Ok response =>
        ((trace (cache_get cfg w req)
          ++ EvUpstream :: trace (cache_json_response cfg w req response))%list,
         Ok response)
    | Raise e => ((trace (cache_get cfg w req) ++ [EvUpstream])%list, Raise e)
    end.
Proof.
  intros Hread Hfalsy. unfold cacher.
  rewrite (bind_ok _ _ r Hread), Hfalsy. unfold call.
  destruct (call_outcome w) as [response | e]; simpl; [| reflexivity].
  destruct (cache_json_response cfg w req response) as [t o]. simpl.
  now rewrite app_nil_r.
Qed.

Lemma cache_get_all_empty (cfg : Settings) (w : World) (req : HTTPRequest)
  (key : string) :
  jsonrpc_cache_key cfg (json req) = Ok key ->
  (forall c, In c (as_completed w (caches req)) ->
     empty_result (get_outcome w c key)) ->
  cache_get cfg w req
  = (map (fun cache => EvGet cache key) (caches req), Ok VNone).
Proof.
  intros Hkey Hall. rewrite (cache_get_keyed cfg w req key Hkey).
  now rewrite (cache_get_loop_all_empty _ _
                 (completed_prefix_empty w key _ Hall)).
Qed.

(** X17. A miss, end to end. When every backend comes back empty, the
    upstream answers with a dict that has no [error] field, and the rule for
    the key is a plain directive of at most 60 seconds that is not
    [NO_CACHE], the orchestrator returns the upstream response after one read
    per backend, the upstream call and one rule lookup, and every backend is
    sent the response under the key with that directive. *)
Theorem cacher_miss_end_to_end (cfg : Settings) (w : World)
  (req : HTTPRequest) (key : string) (d : dict) :
  jsonrpc_cache_key cfg (json req) = Ok key ->
  (forall c, In c (as_completed w (caches req)) ->
     empty_result (get_outcome w c key)) ->
  call_outcome w = Ok (VDict d) ->
  dict_mem "error" d = false ->
  snd (TTLS_longest_prefix cfg key) <> NO_EXPIRE_IF_IRREVERSIBLE cfg ->
  snd (TTLS_longest_prefix cfg key) <> NO_CACHE cfg ->
  snd (TTLS_longest_prefix cfg key) <= 60 ->
  cacher cfg w req
  = ((map (fun cache => EvGet cache key) (caches req)
      ++ EvUpstream :: EvLongestPrefix key
         :: map (fun cache =>
                   EvSet cache key (VDict d) (snd (TTLS_longest_prefix cfg key)))
              (caches req))%list,
     Ok (VDict d)).
Proof.
  intros Hkey Hall Hcall Herr Hdirect Hcache Hsmall.
  pose proof (cache_get_all_empty cfg w req key Hkey Hall) as Hread.
  rewrite (cacher_miss_unfold cfg w req VNone)
    by (try rewrite Hread; reflexivity).
  rewrite Hcall, Hread. cbn [trace fst]. do 3 f_equal.
  unfold cache_json_response, py_contains, lift. cbn [bind].
  rewrite Herr.
  unfold cache_set, cache_set_body, ignore_errors_async.
  rewrite (ttl_from_jsonrpc_request_keyed cfg _ _ _ key Hkey).
  destruct (Z.eqb_spec (snd (TTLS_longest_prefix cfg key))
              (NO_EXPIRE_IF_IRREVERSIBLE cfg)); [contradiction |].
  unfold lift. rewrite Hkey. cbn [bind].
  rewrite (cache_set_loop_uniform cfg w (caches req) key (VDict d) _
             Hsmall Hcache).
  simpl. now rewrite !app_nil_r.
Qed.

Lemma cacher_miss_end_to_end_witness :
  cacher Demo.settings Demo.empty_world (Demo.request "get_dynamic")
  = ([EvGet Demo.memory "get_dynamic"; EvGet Demo.redis "get_dynamic";
      EvUpstream; EvLongestPrefix "get_dynamic";
      EvSet Demo.memory "get_dynamic" Demo.live 3;
      EvSet Demo.redis "get_dynamic" Demo.live 3],
     Ok Demo.live).
Proof.
  apply (cacher_miss_end_to_end Demo.settings Demo.empty_world
           (Demo.request "get_dynamic") "get_dynamic"
           [("id", VInt 7); ("result", VStr "y")] eq_refl).
  - intros c _. exists (VDict []). split; reflexivity.
  - reflexivity.
  - reflexivity.
  - simpl. lia.
  - simpl. lia.
  - simpl. lia.
Defined.

(** X18. When the read yields nothing and the upstream call raises, the
    orchestrator raises the same exception and the write path is never
    entered: after the reads and the upstream call nothing else happens. *)
Theorem cacher_upstream_failure (cfg : Settings) (w : World)
  (req : HTTPRequest) (r : value) (e : exn) :
  outcome (cache_get cfg w req) = Ok r ->
  truthy r = false ->
  call_outcome w = Raise e ->
  cacher cfg w req
  = ((trace (cache_get cfg w req) ++ [EvUpstream])%list, Raise e).
Proof.
  intros Hread Hfalsy Hcall.
  rewrite (cacher_miss_unfold cfg w req r Hread Hfalsy). now rewrite Hcall.
Qed.

Lemma cacher_upstream_failure_witness :
  cacher Demo.settings Cases.failing_upstream (Demo.request "get_feed")
  = ([EvGet Demo.memory "get_feed"; EvGet Demo.redis "get_feed"; EvUpstream],
     Raise (OtherError "upstream down")).
Proof.
  apply (cacher_upstream_failure Demo.settings Cases.failing_upstream
           (Demo.request "get_feed") VNone (OtherError "upstream down"));
    reflexivity.
Defined.

(** X19. An upstream response on which the test ['error' in response] is
    true or itself raises (a dict with an [error] key, a text containing
    "error", a list holding the string "error", or a value that is no
    container at all) is returned to the caller as it is and nothing of the
    write path happens: no rule lookup, no backend [set]. *)
Theorem cacher_returns_uncached (cfg : Settings) (w : World)
  (req : HTTPRequest) (r response : value) :
  outcome (cache_get cfg w req) = Ok r ->
  truthy r = false ->
  call_outcome w = Ok response ->
  py_contains "error" response <> Ok false ->
  cacher cfg w req
  = ((trace (cache_get cfg w req) ++ [EvUpstream])%list, Ok response).
Proof.
  intros Hread Hfalsy Hcall Herr.
  rewrite (cacher_miss_unfold cfg w req r Hread Hfalsy), Hcall.
  do 3 f_equal. unfold cache_json_response, lift.
  destruct (py_contains "error" response) as [[] | e];
    [reflexivity | congruence | reflexivity].
Qed.

Lemma cacher_returns_uncached_witness :
  cacher Demo.settings Cases.error_upstream (Demo.request "get_feed")
  = ([EvGet Demo.memory "get_feed"; EvGet Demo.redis "get_feed"; EvUpstream],
     Ok (VDict Demo.error_response)).
Proof.
  apply (cacher_returns_uncached Demo.settings Cases.error_upstream
           (Demo.request "get_feed") VNone (VDict Demo.error_response));
    try reflexivity.
  discriminate.
Defined.

Lemma cache_set_unkeyed (cfg : Settings) (w : World) (req : HTTPRequest)
  (v : value) (ttl : option Z) (e : exn) :
  jsonrpc_cache_key cfg (json req) = Raise e ->
  cache_set cfg w req v ttl = ([], Ok VNone).
Proof.
  intros Hkey. unfold cache_set, cache_set_body, ignore_errors_async, lift.
  rewrite (ttl_from_jsonrpc_request_unkeyed cfg _ _ _ e Hkey), Hkey.
  destruct ttl as [t |]; [| reflexivity].
  now destruct (t =? 0).
Qed.

(** X20. A request from which no cache key can be derived bypasses the
    caches altogether: no backend is read, the upstream is called, its
    outcome is the orchestrator's, and nothing is looked up or written. *)
Theorem cacher_without_key (cfg : Settings) (w : World) (req : HTTPRequest)
  (e : exn) :
  jsonrpc_cache_key cfg (json req) = Raise e ->
  cacher cfg w req = ([EvUpstream], call_outcome w).
Proof.
  intros Hkey.
  pose proof (cache_get_unkeyed cfg w req e Hkey) as Hread.
  rewrite (cacher_miss_unfold cfg w req VNone)
    by (try rewrite Hread; reflexivity).
  rewrite Hread. cbn [trace fst app].
  destruct (call_outcome w) as [response | e']; [| reflexivity].
  do 3 f_equal. unfold cache_json_response, lift.
  destruct (py_contains "error" response) as [[] | e'];
    try reflexivity.
  cbn [bind]. now rewrite (cache_set_unkeyed cfg w req response None e Hkey).
Qed.

Lemma cacher_without_key_witness :
  cacher Demo.settings Demo.world Cases.keyless_request
  = ([EvUpstream], Ok Demo.live).
Proof.
  apply (cacher_without_key Demo.settings Demo.world Cases.keyless_request
           KeyError).
  reflexivity.
Defined.

Lemma cache_get_read_events (cfg : Settings) (w : World) (req : HTTPRequest) :
  Forall Cases.is_read_event (trace (cache_get cfg w req)).
Proof.
  destruct (jsonrpc_cache_key cfg (json req)) as [key | e] eqn:Hkey.
  - rewrite (cache_get_keyed cfg w req key Hkey). cbn [trace fst].
    apply Forall_forall. intros ev Hin.
    apply in_map_iff in Hin as (c & <- & _). exact I.
  - rewrite (cache_get_unkeyed cfg w req e Hkey). constructor.
Qed.

Lemma cache_set_loop_write_events (cfg : Settings) (w : World)
  (caches : list Cache) (key : string) (v : value) (ttl : Z) :
  Forall Cases.is_write_event (trace (cache_set_loop cfg w caches key v ttl)).
Proof.
  apply Forall_forall. intros ev Hin.
  apply cache_set_loop_only_sets in Hin as (c & t & ->). exact I.
Qed.

Lemma cache_json_response_write_events (cfg : Settings) (w : World)
  (req : HTTPRequest) (v : value) :
  Forall Cases.is_write_event (trace (cache_json_response cfg w req v)).
Proof.
  unfold cache_json_response, lift.
  destruct (py_contains "error" v) as [[] | e]; try constructor.
  cbn [bind].
  destruct (jsonrpc_cache_key cfg (json req)) as [key | e] eqn:Hkey.
  - unfold cache_set, cache_set_body, ignore_errors_async.
    rewrite (ttl_from_jsonrpc_request_keyed cfg _ _ _ key Hkey).
    unfold lift. rewrite Hkey.
    destruct (if _ =? _ then _ else _) as [t | e]; cbn [bind].
    + pose proof (cache_set_loop_write_events cfg w (caches req) key v t)
        as Hloop.
      destruct (cache_set_loop cfg w (caches req) key v t) as [tr o].
      simpl in *. rewrite app_nil_r. constructor; [exact I | exact Hloop].
    + simpl. repeat constructor.
  - rewrite (cache_set_unkeyed cfg w req v None e Hkey). constructor.
Qed.

(** X21. The shape of every run of the orchestrator: first the backend
    reads; then either nothing more, or one upstream call followed by events
    of the write path only. So the upstream is called at most once, never
    before the reads are issued, and the write path never reads a backend. *)
Theorem cacher_run_shape (cfg : Settings) (w : World) (req : HTTPRequest) :
  exists reads writes,
    Forall Cases.is_read_event reads
    /\ Forall Cases.is_write_event writes
    /\ (trace (cacher cfg w req) = reads
        \/ trace (cacher cfg w req) = (reads ++ EvUpstream :: writes)%list).
Proof.
  destruct (cache_get_returns cfg w req) as (r & Hread & _).
  exists (trace (cache_get cfg w req)).
  destruct (truthy r) eqn:Htruthy.
  - exists []. split; [apply cache_get_read_events |].
    split; [constructor |]. left.
    apply (cacher_hit cfg w req r Hread Htruthy).
  - rewrite (cacher_miss_unfold cfg w req r Hread Htruthy).
    destruct (call_outcome w) as [response | e].
    + exists (trace (cache_json_response cfg w req response)).
      split; [apply cache_get_read_events |].
      split; [apply cache_json_response_write_events | now right].
    + exists []. split; [apply cache_get_read_events |].
      split; [constructor | now right].
Qed.

(** X22. Whatever the directive and the sentinels, one run of the write loop
    writes a leading part of the registered backends, each once and in
    order, all under the same key and value, never with the [NO_CACHE] TTL
    and never with a TTL above the directive. *)
Theorem cache_set_loop_writes_a_prefix (cfg : Settings) (w : World)
  (caches : list Cache) (key : string) (v : value) (ttl : Z) :
  exists ttls,
    (List.length ttls <= List.length caches)%nat
    /\ trace (cache_set_loop cfg w caches key v ttl)
       = map (fun p => EvSet (fst p) key v (snd p)) (combine caches ttls)
    /\ Forall (fun t => t <= ttl /\ t <> NO_CACHE cfg) ttls.
Proof.
  revert ttl. induction caches as [| cache rest IH]; intros ttl.
  - exists []. repeat split; constructor.
  - rewrite cache_set_loop_cons, memory_cache_ttl_min. cbv zeta.
    set (ttl' := if is_SimpleMemoryCache cache then Z.min ttl 60 else ttl).
    assert (Hle : ttl' <= ttl)
      by (unfold ttl'; destruct (is_SimpleMemoryCache cache); lia).
    destruct (Z.eqb_spec ttl' (NO_CACHE cfg)) as [Heq | Hne].
    + exists []. simpl. repeat split; [lia | constructor].
    + destruct (IH ttl') as (ttls & Hlen & Htrace & Hall).
      exists (ttl' :: ttls). cbn [trace fst combine map List.length].
      split; [lia |]. split; [now rewrite Htrace |].
      constructor; [split; [exact Hle | exact Hne] |].
      apply Forall_forall. intros t Ht.
      apply (proj1 (Forall_forall _ _) Hall) in Ht as [Ht1 Ht2].
      split; [lia | exact Ht2].
Qed.
